(** * kubernetes_nodes: an Ansible inventory plugin over [kubectl get nodes]

    A shallow embedding of [plugins/inventory/kubernetes_nodes.py] and the
    properties of its inventory-construction pipeline.

    Layout:
    - [Py]        the fragment of Python's data and exception model the
                  plugin relies on (JSON values, subscripting, iteration);
    - [Inv]       the inventory sink the plugin writes to, as a state and
                  exception monad over an explicit store;
    - [Plugin]    [get_nodes], [add_node] and [add_nodes], line by line;
    - the theorems, one block per property. *)

From Stdlib Require Import ZArith Ascii String.
From stdpp Require Import base option list gmap strings fin_maps.

Set Default Proof Using "Type".
#[local] Set Warnings "-register-all,-clear-no-such-hyp".
Open Scope string_scope.

(* ===================================================================== *)
(** ** Python values and exceptions                                        *)
(* ===================================================================== *)

(** What [json.loads] produces, and what host variables hold.  A [JDict]
    keeps its items in insertion order, as a Python [dict] does; the keys
    of a dict that comes out of [json.loads] or the YAML loader are
    pairwise distinct, and [assoc] reads the first binding. *)
Inductive json : Type :=
| JNull
| JBool (b : bool)
| JNum (z : Z)
| JStr (s : string)
| JList (l : list json)
| JDict (d : list (string * json)).

(** The exceptions that can travel through the plugin. *)
Inductive exn : Type :=
| KeyError (key : string)
| TypeError (msg : string)
| AttributeError (msg : string)
| StopIteration
| CalledProcessError (msg : string)
| OSError (msg : string)
| JSONDecodeError (msg : string)
| AnsibleError (msg : string)
| AnsibleParserError (msg : string)
| AnsibleRuntimeError (msg : string).

(** [str(err)], as used in messages. *)
Definition str_exn (e : exn) : string :=
  match e with
  | KeyError k => "'" +:+ k +:+ "'"
  | StopIteration => ""
  | TypeError m | AttributeError m | CalledProcessError m | OSError m
  | JSONDecodeError m | AnsibleError m | AnsibleParserError m
  | AnsibleRuntimeError m => m
  end.

(** The outcome of evaluating a Python expression: a value or a raised
    exception. *)
Inductive outcome (A : Type) : Type :=
| Return (x : A)
| Raised (e : exn).
Arguments Return {A} x.
Arguments Raised {A} e.

Definition obind {A B} (m : outcome A) (k : A -> outcome B) : outcome B :=
  match m with
  | Return x => k x
  | Raised e => Raised e
  end.

Module Py.

(** [d[k]] on the items of a dict. *)
Fixpoint assoc (k : string) (d : list (string * json)) : option json :=
  match d with
  | [] => None
  | (k', v) :: rest => if String.eqb k k' then Some v else assoc k rest
  end.

(** [obj[key]] with a [str] key. *)
Definition getitem (obj : json) (key : string) : outcome json :=
  match obj with
  | JDict d =>
      match assoc key d with
      | Some v => Return v
      | None => Raised (KeyError key)
      end
  | JList _ => Raised (TypeError "list indices must be integers or slices, not str")
  | JStr _ => Raised (TypeError "string indices must be integers, not 'str'")
  | JNull | JBool _ | JNum _ => Raised (TypeError "object is not subscriptable")
  end.

(** [obj[a][b]] *)
Definition getitem2 (obj : json) (a b : string) : outcome json :=
  obind (getitem obj a) (fun inner => getitem inner b).

(** [obj.get(key, default)]: only a dict has the method. *)
Definition get (obj : json) (key : string) (default : json) : outcome json :=
  match obj with
  | JDict d =>
      match assoc key d with
      | Some v => Return v
      | None => Return default
      end
  | _ => Raised (AttributeError "object has no attribute 'get'")
  end.

Fixpoint chars (s : string) : list json :=
  match s with
  | EmptyString => []
  | String c rest => JStr (String c EmptyString) :: chars rest
  end.

(** [iter(obj)], unrolled: a list yields its elements, a dict its keys,
    a str its characters; nothing else is iterable. *)
Definition iter (obj : json) : outcome (list json) :=
  match obj with
  | JList l => Return l
  | JDict d => Return (map (fun kv => JStr (fst kv)) d)
  | JStr s => Return (chars s)
  | JNull | JBool _ | JNum _ => Raised (TypeError "object is not iterable")
  end.

(** [bool(obj)], the test of [if obj:]. *)
Definition truthy (obj : json) : bool :=
  match obj with
  | JNull => false
  | JBool b => b
  | JNum z => negb (Z.eqb z 0)
  | JStr s => negb (String.eqb s "")
  | JList l => negb (Nat.eqb (length l) 0)
  | JDict d => negb (Nat.eqb (length d) 0)
  end.

(** [obj == s] for a [str] [s]: only an equal [str] compares equal. *)
Definition eq_str (obj : json) (s : string) : bool :=
  match obj with
  | JStr t => String.eqb t s
  | _ => false
  end.

End Py.

(* ===================================================================== *)
(** ** The inventory sink                                                  *)
(* ===================================================================== *)

(** Modelled from the spec: the inventory object ([self.inventory], Ansible's
    inventory data) is not part of this repository.  The spec's sections 3
    and 6 give its interface: hosts keyed by name, each with a variable
    mapping; groups keyed by name, each listing its hosts; [AddHost],
    [SetVariable] and [AddHostToGroup] style operations.  A host that
    already exists is kept by [add_host], and [set_variable] overwrites. *)
Record host : Type := Host { vars : gmap string json }.

Record inventory : Type := InventoryData {
  hosts : gmap string host;
  groups : gmap string (gset string)
}.

Definition empty_inventory : inventory :=
  {| hosts := ∅; groups := ∅ |}.

(** Statements of the plugin run against the store and may raise: the
    store survives an exception, as the mutated Python objects do. *)
Definition M (A : Type) : Type := inventory -> outcome A * inventory.

Definition ret {A} (x : A) : M A := fun inv => (Return x, inv).
Definition raise {A} (e : exn) : M A := fun inv => (Raised e, inv).
Definition lift {A} (o : outcome A) : M A := fun inv => (o, inv).
Definition bind {A B} (m : M A) (k : A -> M B) : M B :=
  fun inv =>
    match m inv with
    | (Return x, inv') => k x inv'
    | (Raised e, inv') => (Raised e, inv')
    end.

Notation "x <- m ;; k" := (bind m (fun x => k))
  (at level 100, m at next level, right associativity).
Notation "m ;; k" := (bind m (fun _ => k))
  (at level 100, right associativity).

(** [for x in l: body(x)] *)
Fixpoint for_each {X} (l : list X) (body : X -> M unit) : M unit :=
  match l with
  | [] => ret tt
  | x :: rest => body x ;; for_each rest body
  end.

Module Inv.

(** [inventory.add_host(host)]: the name must be a non-empty str; a new
    host starts with no variables, an existing one is left as it is.
    The call returns the name it was given. *)
Definition add_host (name : json) : M string :=
  fun inv =>
    if Py.truthy name then
      match name with
      | JStr s =>
          match hosts inv !! s with
          | Some _ => (Return s, inv)
          | None =>
              (Return s,
               {| hosts := <[s := Host ∅]> (hosts inv); groups := groups inv |})
          end
      | _ => (Raised (AnsibleError "Invalid host name supplied, expected a string"), inv)
      end
    else (Raised (AnsibleError "Invalid empty host name provided"), inv).

(** [inventory.set_variable(entity, varname, value)] *)
Definition set_variable (entity varname : string) (value : json) : M unit :=
  fun inv =>
    match hosts inv !! entity with
    | Some h =>
        (Return tt,
         {| hosts := <[entity := Host (<[varname := value]> (vars h))]> (hosts inv);
            groups := groups inv |})
    | None =>
        (Raised (AnsibleError ("Could not identify group or host named " +:+ entity)), inv)
    end.

(** [inventory.hosts[name].vars], read through the reference the caller
    holds: the dict is shared with the store, so every read sees the
    writes made so far. *)
Definition host_vars (name : string) : M (gmap string json) :=
  fun inv =>
    match hosts inv !! name with
    | Some h => (Return (vars h), inv)
    | None => (Raised (KeyError name), inv)
    end.

(** [inventory.add_group(group)]: creates the group when absent. *)
Definition add_group (group : string) : M string :=
  fun inv =>
    match groups inv !! group with
    | Some _ => (Return group, inv)
    | None => (Return group, {| hosts := hosts inv; groups := <[group := ∅]> (groups inv) |})
    end.

(** [inventory.add_child(group, host)] *)
Definition add_child (group child : string) : M unit :=
  fun inv =>
    match groups inv !! group, hosts inv !! child with
    | Some members, Some _ =>
        (Return tt,
         {| hosts := hosts inv; groups := <[group := {[child]} ∪ members]> (groups inv) |})
    | _, _ => (Raised (AnsibleError (child +:+ " is not a known host nor group")), inv)
    end.

End Inv.

(* ===================================================================== *)
(** ** Collaborators: the expression engine and the node source            *)
(* ===================================================================== *)

(** Modelled from the spec: the expression evaluator of section 4.4 (the
    host runtime's templating engine) is not part of this repository.  It
    is an interface with the two modes the spec names: compose mode gives a
    value, predicate mode a boolean, and either may fail. *)
Class Templar : Type := {
  _compose : string -> gmap string json -> outcome json;
  template_conditional : string -> gmap string json -> outcome bool
}.

(** [subprocess.check_output] and [json.loads]: what running a command
    gives back (its standard output, or an exception such as
    [CalledProcessError] on a non-zero exit), and the parse of a text. *)
Class NodeSource : Type := {
  check_output : list string -> outcome string;
  json_loads : string -> outcome json
}.

(** One entry of the [keyed_groups] option. *)
Record keyed_group : Type := KeyedGroup {
  key : string;
  prefix : string;
  separator : string;
  default_value : option string
}.

(** The options [get_option] reads: those of [DOCUMENTATION] and those of
    the [constructed] fragment it extends.  A dict option is the list of
    its items, in declaration order. *)
Record options : Type := Options {
  opt_vars : list (string * json);
  opt_address_from : string;
  opt_node_selectors : option (list (string * option string));
  opt_strict : bool;
  opt_compose : list (string * string);
  opt_groups : list (string * string);
  opt_keyed_groups : list keyed_group
}.

Module Constructable.
Section Helpers.
Context {T : Templar}.

(** Modelled from the spec: [_set_composite_vars] is inherited from the
    host runtime.  Section 4.3, step 3: each entry's expression is
    evaluated and the result assigned to its name, overwriting; a failed
    evaluation is a hard failure when [strict], and skipped otherwise.
    [variables] is the host's own dict, held by reference. *)
Definition _set_composite_vars (compose : list (string * string))
    (variables : M (gmap string json)) (host : string) (strict : bool) : M unit :=
  for_each compose (fun entry =>
    let '(varname, expr) := entry in
    hv <- variables ;;
    match _compose expr hv with
    | Raised e =>
        if strict
        then raise (AnsibleError
               ("Could not set " +:+ varname +:+ " for host " +:+ host +:+ ": " +:+ str_exn e))
        else ret tt
    | Return composite => Inv.set_variable host varname composite
    end).

(** Modelled from the spec: [_add_host_to_composed_groups], section 4.5.
    For each (group name, predicate): evaluate in predicate mode; when
    true, add the host to the group, creating it if absent.  A failed
    evaluation aborts when [strict] and skips the pair otherwise. *)
Definition _add_host_to_composed_groups (groups : list (string * string))
    (variables : M (gmap string json)) (host : string) (strict : bool) : M unit :=
  for_each groups (fun entry =>
    let '(group_name, conditional) := entry in
    hv <- variables ;;
    match template_conditional conditional hv with
    | Raised e =>
        if strict
        then raise (AnsibleParserError
               ("Could not add host " +:+ host +:+ " to group " +:+ group_name +:+ ": " +:+ str_exn e))
        else ret tt
    | Return result =>
        if result
        then (group_name <- Inv.add_group group_name ;; Inv.add_child group_name host)
        else ret tt
    end).

(** The group a key specification derives from a resolved key value: an
    empty value stands for an absent key and falls back on the default. *)
Definition keyed_group_name (keyed : keyed_group) (value : string) : option string :=
  let bare_name := if String.eqb value "" then default_value keyed else Some value in
  match bare_name with
  | Some name => Some (prefix keyed +:+ separator keyed +:+ name)
  | None => None
  end.

(** Modelled from the spec: [_add_host_to_keyed_groups], section 4.5.
    For each key specification: resolve the key in compose mode, derive
    the group name from it and add the host to that group; an absent key
    with no default skips the specification.  A failed evaluation, or a
    key that is not a string, aborts when [strict] and skips the
    specification otherwise. *)
Definition _add_host_to_keyed_groups (keys : list keyed_group)
    (variables : M (gmap string json)) (host : string) (strict : bool) : M unit :=
  for_each keys (fun keyed =>
    hv <- variables ;;
    match _compose (key keyed) hv with
    | Raised e =>
        if strict
        then raise (AnsibleParserError
               ("Could not generate group for host " +:+ host +:+ " from " +:+ key keyed
                +:+ " entry: " +:+ str_exn e))
        else ret tt
    | Return (JStr value) =>
        match keyed_group_name keyed value with
        | Some gname => (gname <- Inv.add_group gname ;; Inv.add_child gname host)
        | None => ret tt
        end
    | Return _ =>
        if strict
        then raise (AnsibleParserError "Invalid group name format, expected a string")
        else ret tt
    end).

End Helpers.
End Constructable.

(* ===================================================================== *)
(** ** The plugin                                                          *)
(* ===================================================================== *)

Module Plugin.
Section Plugin.
Context {T : Templar} {K : NodeSource}.

(** Lines 36-43 of [get_nodes]: the command line. *)
Definition extend_selector (cmd : list string) (item : string * option string)
    : list string :=
  match item with
  | (k, None) => cmd ++ ["-l"; k]
  | (k, Some v) => cmd ++ ["-l"; k +:+ "=" +:+ v]
  end.

Definition get_nodes_cmd (selectors : option (list (string * option string)))
    : list string :=
  let cmd := ["kubectl"; "get"; "nodes"; "-o"; "json"] in
  match selectors with
  | Some (item :: items) => fold_left extend_selector (item :: items) cmd
  | Some [] | None => cmd
  end.

(** Lines 45-48: run, parse, take ["items"]; a [CalledProcessError] is
    re-raised as an [AnsibleRuntimeError], anything else passes. *)
Definition get_nodes (selectors : option (list (string * option string)))
    : outcome json :=
  let cmd := get_nodes_cmd selectors in
  match obind (check_output cmd) (fun out =>
        obind (json_loads out) (fun doc => Py.get doc "items" (JList []))) with
  | Raised (CalledProcessError err) =>
      Raised (AnsibleRuntimeError ("failed to get nodes: " +:+ err))
  | r => r
  end.

(** [next(addr for addr in addresses if addr["type"] == address_from)] *)
Fixpoint next_address (addresses : list json) (address_from : string) : outcome json :=
  match addresses with
  | [] => Raised StopIteration
  | addr :: rest =>
      obind (Py.getitem addr "type") (fun ty =>
        if Py.eq_str ty address_from then Return addr
        else next_address rest address_from)
  end.

(** Lines 77-81: the address the host is reached at. *)
Definition node_address (node : json) (address_from : string) : outcome json :=
  obind (Py.getitem2 node "status" "addresses") (fun addresses =>
  obind (Py.iter addresses) (fun it =>
  obind (next_address it address_from) (fun addr =>
  Py.getitem addr "address"))).

(** Line 76: [node["metadata"]["name"]]. *)
Definition node_hostname (node : json) : outcome json :=
  Py.getitem2 node "metadata" "name".

(** [add_node], lines 75-110.  [add_host] hands back the name it
    accepted, which is the str the later calls are given. *)
Definition add_node (cfg : options) (node : json) : M unit :=
  hostname <- lift (node_hostname node) ;;
  addr <- lift (node_address node (opt_address_from cfg)) ;;
  hostname <- Inv.add_host hostname ;;
  Inv.set_variable hostname "ansible_host" addr ;;
  node_labels <- lift (Py.getitem2 node "metadata" "labels") ;;
  Inv.set_variable hostname "node_labels" node_labels ;;
  node_annotations <- lift (Py.getitem2 node "metadata" "annotations") ;;
  Inv.set_variable hostname "node_annotations" node_annotations ;;
  node_info <- lift (Py.getitem2 node "status" "nodeInfo") ;;
  Inv.set_variable hostname "node_info" node_info ;;
  for_each (opt_vars cfg) (fun item =>
    let '(varname, varval) := item in Inv.set_variable hostname varname varval) ;;
  let host_vars := Inv.host_vars hostname in
  let strict := opt_strict cfg in
  Constructable._set_composite_vars (opt_compose cfg) host_vars hostname true ;;
  Constructable._add_host_to_composed_groups (opt_groups cfg) host_vars hostname strict ;;
  Constructable._add_host_to_keyed_groups (opt_keyed_groups cfg) host_vars hostname strict.

(** [add_nodes], lines 71-73. *)
Definition add_nodes (cfg : options) : M unit :=
  nodes <- lift (obind (get_nodes (opt_node_selectors cfg)) Py.iter) ;;
  for_each nodes (add_node cfg).

End Plugin.
End Plugin.

(* ===================================================================== *)
(** ** A small expression engine, for running the plugin on examples       *)
(* ===================================================================== *)

(** Modelled from the spec: one instance of the evaluator of section 4.4,
    restricted to variable reference and attribute access.  An expression
    is a dotted path [a.b.c], bare or written between double braces;
    blanks are ignored.  Anything else is a syntax error, and a path that
    does not resolve is an undefined-variable error. *)
Module PathTemplar.

Definition is_ident_char (c : ascii) : bool :=
  let n := nat_of_ascii c in
  (((48 <=? n) && (n <=? 57)) || ((65 <=? n) && (n <=? 90))
   || ((97 <=? n) && (n <=? 122)) || (n =? 95))%nat.

Fixpoint drop_blanks (s : string) : string :=
  match s with
  | EmptyString => EmptyString
  | String c rest =>
      if Ascii.eqb c " "%char then drop_blanks rest else String c (drop_blanks rest)
  end.

(** The text between ["{{"] and ["}}"], or the text itself. *)
Definition unbrace (s : string) : string :=
  let n := String.length s in
  if String.prefix "{{" s && String.eqb (substring (n - 2) 2 s) "}}" && (4 <=? n)%nat
  then substring 2 (n - 4) s else s.

(** Splits at the dots; [None] on a character no identifier has. *)
Fixpoint segments (s : string) (cur : string) : option (list string) :=
  match s with
  | EmptyString => Some [cur]
  | String c rest =>
      if Ascii.eqb c "."%char then cons cur <$> segments rest ""
      else if is_ident_char c then segments rest (cur +:+ String c EmptyString)
      else None
  end.

Fixpoint attrs (obj : json) (path : list string) : outcome json :=
  match path with
  | [] => Return obj
  | a :: rest =>
      match Py.getitem obj a with
      | Return v => attrs v rest
      | Raised _ => Raised (AnsibleError ("undefined attribute " +:+ a))
      end
  end.

Definition eval (expr : string) (variables : gmap string json) : outcome json :=
  match segments (unbrace (drop_blanks expr)) "" with
  | Some (x :: path) =>
      if forallb (fun seg => negb (String.eqb seg "")) (x :: path) then
        match variables !! x with
        | Some v => attrs v path
        | None => Raised (AnsibleError ("'" +:+ x +:+ "' is undefined"))
        end
      else Raised (AnsibleError "template syntax error")
  | _ => Raised (AnsibleError "template syntax error")
  end.

Definition eval_bool (expr : string) (variables : gmap string json) : outcome bool :=
  obind (eval expr variables) (fun v => Return (Py.truthy v)).

Definition templar : Templar :=
  {| _compose := eval; template_conditional := eval_bool |}.

End PathTemplar.

(** A node source that answers every command with one fixed document. *)
Definition fixed_source (doc : json) : NodeSource :=
  {| check_output := fun _ => Return "";
     json_loads := fun _ => Return doc |}.

(** A node source whose command exits with a non-zero status. *)
Definition failing_source (err : string) : NodeSource :=
  {| check_output := fun _ => Raised (CalledProcessError err);
     json_loads := fun _ => Raised (JSONDecodeError "Expecting value") |}.

(** Builders for the node descriptions used in examples. *)
Definition address_entry (kind value : string) : json :=
  JDict [("address", JStr value); ("type", JStr kind)].

Definition mk_node (name : string) (addresses : list json) (labels : list (string * json))
    : json :=
  JDict [("metadata", JDict [("annotations", JDict []); ("labels", JDict labels);
                             ("name", JStr name)]);
         ("status", JDict [("addresses", JList addresses); ("nodeInfo", JDict [])])].

Definition default_options : options :=
  {| opt_vars := []; opt_address_from := "InternalIP"; opt_node_selectors := Some [];
     opt_strict := false; opt_compose := []; opt_groups := []; opt_keyed_groups := [] |}.

(** The node and the options of the precedence example: a node labelled
    [role: edge], a static [role=worker] and a composed [role]. *)
Definition edge_node : json :=
  mk_node "n1" [address_entry "InternalIP" "10.0.0.1"; address_entry "Hostname" "n1"]
    [("role", JStr "edge")].

Definition role_options : options :=
  {| opt_vars := [("role", JStr "worker")]; opt_address_from := "InternalIP";
     opt_node_selectors := Some []; opt_strict := false;
     opt_compose := [("role", "{{ node_labels.role }}")];
     opt_groups := []; opt_keyed_groups := [] |}.

(** A second well-formed node, and descriptions with one field missing. *)
Definition second_node : json :=
  mk_node "n2" [address_entry "InternalIP" "10.0.0.2"] [].

Definition nameless_node : json :=
  JDict [("metadata", JDict [("annotations", JDict []); ("labels", JDict [])]);
         ("status", JDict [("addresses", JList [address_entry "InternalIP" "10.0.0.3"]);
                           ("nodeInfo", JDict [])])].

Definition unlabelled_node : json :=
  JDict [("metadata", JDict [("annotations", JDict []); ("name", JStr "n4")]);
         ("status", JDict [("addresses", JList [address_entry "InternalIP" "10.0.0.4"]);
                           ("nodeInfo", JDict [])])].


(** The document [kubectl get nodes -o json] prints for a list of nodes. *)
Definition node_list (nodes : list json) : json :=
  JDict [("apiVersion", JStr "v1"); ("items", JList nodes); ("kind", JStr "List")].


(** Options that compose [role] from the node's labels, derive a keyed
    group from that composed variable, and hold one predicate that holds
    and one that fails on a node with no [zone] label. *)
Definition grouping_options : options :=
  {| opt_vars := []; opt_address_from := "InternalIP"; opt_node_selectors := Some [];
     opt_strict := false; opt_compose := [("role", "node_labels.role")];
     opt_groups := [("labelled", "node_labels.role"); ("zoned", "node_labels.zone")];
     opt_keyed_groups :=
       [{| key := "role"; prefix := "role"; separator := "_"; default_value := None |}] |}.

(* ===================================================================== *)
(** ** Specification vocabulary                                            *)
(* ===================================================================== *)

(** The store with the variables of host [h] replaced by [hv]. *)
Definition with_vars (h : string) (hv : gmap string json) (inv : inventory) : inventory :=
  {| hosts := <[h := Host hv]> (hosts inv); groups := groups inv |}.

(** The variables host [h] has in [inv]; none when there is no such host. *)
Definition old_vars (inv : inventory) (h : string) : gmap string json :=
  match hosts inv !! h with
  | Some hr => vars hr
  | None => ∅
  end.

(** Assignments applied left to right, each overwriting. *)
Definition assign (m : gmap string json) (l : list (string * json)) : gmap string json :=
  foldl (fun acc kv => <[kv.1 := kv.2]> acc) m l.

(** The value the last assignment to [k] in [l] gives it. *)
Fixpoint last_binding (k : string) (l : list (string * json)) : option json :=
  match l with
  | [] => None
  | (k', v) :: rest =>
      match last_binding k rest with
      | Some w => Some w
      | None => if decide (k = k') then Some v else None
      end
  end.

(** Step 1 of the variable merger: the four derived variables. *)
Definition fixed_vars (addr labels annotations info : json) : list (string * json) :=
  [("ansible_host", addr); ("node_labels", labels);
   ("node_annotations", annotations); ("node_info", info)].

(** Step 3: [composed] lists the values the composed variables were given,
    each expression evaluated against the mapping as it stood then. *)
Inductive composed_from {T : Templar} (base : gmap string json)
    : list (string * string) -> list (string * json) -> Prop :=
| composed_nil : composed_from base [] []
| composed_cons varname expr v rest vs :
    _compose expr base = Return v ->
    composed_from (<[varname := v]> base) rest vs ->
    composed_from base ((varname, expr) :: rest) ((varname, v) :: vs).

(** The hosts of a group; none when there is no such group. *)
Definition members (inv : inventory) (group : string) : gset string :=
  default ∅ (groups inv !! group).

(** The store with its groups replaced. *)
Definition with_groups (gs : gmap string (gset string)) (inv : inventory) : inventory :=
  {| hosts := hosts inv; groups := gs |}.

(** Host [h] made a member of group [g], the group created when absent. *)
Definition join (h g : string) (gs : gmap string (gset string)) : gmap string (gset string) :=
  <[g := {[h]} ∪ default ∅ (gs !! g)]> gs.

Definition join_all (h : string) (targets : list string) (gs : gmap string (gset string))
    : gmap string (gset string) :=
  foldl (fun acc g => join h g acc) gs targets.

(** The groups whose predicate holds of the mapping [hv]: pairs whose
    predicate is false, or fails, contribute nothing. *)
Definition composed_targets {T : Templar} (hv : gmap string json)
    (entries : list (string * string)) : list string :=
  flat_map (fun entry =>
    match template_conditional entry.2 hv with
    | Return true => [entry.1]
    | _ => []
    end) entries.

(** Whether some predicate fails on [hv]. *)
Definition composed_error {T : Templar} (hv : gmap string json)
    (entries : list (string * string)) : bool :=
  existsb (fun entry =>
    match template_conditional entry.2 hv with
    | Raised _ => true
    | Return _ => false
    end) entries.

(** The groups the key specifications derive from [hv]. *)
Definition keyed_targets {T : Templar} (hv : gmap string json)
    (keys : list keyed_group) : list string :=
  flat_map (fun keyed =>
    match _compose (key keyed) hv with
    | Return (JStr value) =>
        match Constructable.keyed_group_name keyed value with
        | Some gname => [gname]
        | None => []
        end
    | _ => []
    end) keys.

(** Whether some key fails to resolve to a string on [hv]. *)
Definition keyed_error {T : Templar} (hv : gmap string json)
    (keys : list keyed_group) : bool :=
  existsb (fun keyed =>
    match _compose (key keyed) hv with
    | Return (JStr _) => false
    | _ => true
    end) keys.

(** Only the entry of host [h] may differ between two stores. *)
Definition only (h : string) (inv inv' : inventory) : Prop :=
  forall h', h' ≠ h -> hosts inv' !! h' = hosts inv !! h'.

(** The two stores have the same hosts, with the same variables. *)
Definition same_hosts (inv inv' : inventory) : Prop := hosts inv' = hosts inv.

(** The host name a node description carries, as a set: empty when the
    name is missing or is not a str. *)
Definition name_of (node : json) : gset string :=
  match Plugin.node_hostname node with
  | Return (JStr h) => {[h]}
  | _ => ∅
  end.

Definition names_of (nodes : list json) : gset string := ⋃ (name_of <$> nodes).

(** An entry of [status.addresses] as the node source lists it: a dict
    whose ["type"] is the str [kind] and whose ["address"] is [value]. *)
Definition is_address (entry : json) (kind : string) (value : json) : Prop :=
  Py.getitem entry "type" = Return (JStr kind) /\ Py.getitem entry "address" = Return value.

(** The value of the first (kind, value) pair of the preferred kind. *)
Fixpoint first_of_kind (preferred : string) (record : list (string * json)) : option json :=
  match record with
  | [] => None
  | (kind, value) :: rest =>
      if String.eqb kind preferred then Some value else first_of_kind preferred rest
  end.

(** [obj[a]] is a dict that has no key [b]. *)
Definition lacks (obj : json) (a b : string) : Prop :=
  exists inner, Py.getitem obj a = Return (JDict inner) /\ Py.assoc b inner = None.

(** The options with the global strictness flag set to [b]. *)
Definition with_strict (b : bool) (cfg : options) : options :=
  {| opt_vars := opt_vars cfg; opt_address_from := opt_address_from cfg;
     opt_node_selectors := opt_node_selectors cfg; opt_strict := b;
     opt_compose := opt_compose cfg; opt_groups := opt_groups cfg;
     opt_keyed_groups := opt_keyed_groups cfg |}.

(** The options with no group to derive. *)
Definition without_groups (cfg : options) : options :=
  {| opt_vars := opt_vars cfg; opt_address_from := opt_address_from cfg;
     opt_node_selectors := opt_node_selectors cfg; opt_strict := opt_strict cfg;
     opt_compose := opt_compose cfg; opt_groups := []; opt_keyed_groups := [] |}.

(** A match constraint on a node label, as the node source understands
    them: the label is present, or it has a given value. *)
Inductive constraint : Type :=
| Present (label : string)
| Equals (label value : string).

Definition constraint_of (item : string * option string) : constraint :=
  match item with
  | (k, None) => Present k
  | (k, Some v) => Equals k v
  end.

(** A constraint on the command line: one [-l] option of its own. *)
Definition render (c : constraint) : list string :=
  match c with
  | Present k => ["-l"; k]
  | Equals k v => ["-l"; k +:+ "=" +:+ v]
  end.

Definition kubectl_get_nodes : list string := ["kubectl"; "get"; "nodes"; "-o"; "json"].

(** Lines 97-110 on their own: the three inherited helpers in order. *)
Definition construct {T : Templar} (cfg : options) (h : string) : M unit :=
  Constructable._set_composite_vars (opt_compose cfg) (Inv.host_vars h) h true ;;
  Constructable._add_host_to_composed_groups (opt_groups cfg) (Inv.host_vars h) h
    (opt_strict cfg) ;;
  Constructable._add_host_to_keyed_groups (opt_keyed_groups cfg) (Inv.host_vars h) h
    (opt_strict cfg).

(** A frame property: a relation between stores that every statement of a
    sequence keeps is kept by the sequence. *)
Definition keeps {A} (R : inventory -> inventory -> Prop) (m : M A) : Prop :=
  forall inv r inv', m inv = (r, inv') -> R inv inv'.

(* ===================================================================== *)
(** ** The plugin's entry points                                           *)
(* ===================================================================== *)

(** [s.endswith(suffix)]: the last [len(suffix)] characters of [s] are
    [suffix]; a string shorter than the suffix does not end with it. *)
Definition endswith (s suffix : string) : bool :=
  (String.length suffix <=? String.length s)%nat
  && String.eqb (substring (String.length s - String.length suffix)
                   (String.length suffix) s) suffix.

(** [s.endswith((suffix1, suffix2, ...))] *)
Definition endswith_any (s : string) (suffixes : list string) : bool :=
  existsb (endswith s) suffixes.

(** What the plugin inherits from its base class and calls through
    [super()] or [self]: whether a path is a readable file, and the
    options read from the configuration file at a path. *)
Class BasePlugin : Type := {
  base_verify_file : string -> bool;
  _read_config_data : string -> outcome options
}.

Module InventoryModule.
Section InventoryModule.
Context {T : Templar} {K : NodeSource} {B : BasePlugin}.

(** [verify_file], lines 55-60. *)
Definition verify_file (path : string) : bool :=
  let valid := false in
  if base_verify_file path
  then (if endswith_any path ["kubernetes_nodes.yaml"; "kubernetes_nodes.yml"]
        then true else valid)
  else valid.

(** [parse], lines 62-69: the base class's own [parse] only records its
    arguments; the options come from the file, and the build follows.
    [cache] is accepted and not used. *)
Definition parse (path : string) (cache : bool) : M unit :=
  config <- lift (_read_config_data path) ;;
  Plugin.add_nodes config.

End InventoryModule.
End InventoryModule.

(** A base class that accepts every path and reads the same options at
    each. *)
Definition constant_base (cfg : options) : BasePlugin :=
  {| base_verify_file := fun _ => true; _read_config_data := fun _ => Return cfg |}.

(* ===================================================================== *)
(** ** More vocabulary                                                     *)
(* ===================================================================== *)

(** The store a node accepted under [cfg] leaves, given its host name and
    the variables [hv] its host ends with. *)
Definition built {T : Templar} (cfg : options) (h : string) (hv : gmap string json)
    (inv : inventory) : inventory :=
  with_groups
    (join_all h (keyed_targets hv (opt_keyed_groups cfg))
       (join_all h (composed_targets hv (opt_groups cfg)) (groups inv)))
    (with_vars h hv inv).

(** No host is lost and no membership is lost from [inv] to [inv']. *)
Definition grows (inv inv' : inventory) : Prop :=
  dom (hosts inv) ⊆ dom (hosts inv') /\
  forall g, members inv g ⊆ members inv' g.

(** The composed expressions of [cfg] read no composed variable: their
    value is the same on two mappings that agree on every other key. *)
Definition compose_independent {T : Templar} (cfg : options) : Prop :=
  forall varname expr hv hv',
    (varname, expr) ∈ opt_compose cfg ->
    (forall k, k ∉ (opt_compose cfg).*1 -> hv !! k = hv' !! k) ->
    _compose expr hv = _compose expr hv'.

(** An address entry the search passes over: it has a ["type"], and the
    type is not the preferred one. *)
Definition other_kind (preferred : string) (entry : json) : Prop :=
  exists ty, Py.getitem entry "type" = Return ty /\ Py.eq_str ty preferred = false.

(** An address entry the search stops at. *)
Definition of_kind (preferred : string) (entry : json) : Prop :=
  exists ty, Py.getitem entry "type" = Return ty /\ Py.eq_str ty preferred = true.

(** A third well-formed node, labelled like [edge_node]. *)
Definition core_node : json :=
  mk_node "n3" [address_entry "InternalIP" "10.0.0.3"] [("role", JStr "core")].

(** The variables every accepted host is given: the derived ones, the
    static ones and the composed ones. *)
Definition assigned_keys (cfg : options) : list string :=
  (["ansible_host"; "node_labels"; "node_annotations"; "node_info"]
   ++ (opt_vars cfg).*1 ++ (opt_compose cfg).*1)%list.

(** Host [h] exists in [inv] and has a value for each of [keys]. *)
Definition carries (keys : list string) (inv : inventory) (h : string) : Prop :=
  exists hv, hosts inv !! h = Some (Host hv) /\ forall k, k ∈ keys -> is_Some (hv !! k).

(* ===================================================================== *)
(** ** Reasoning about statements                                          *)
(* ===================================================================== *)

Section Monad.
Context {A B : Type}.

Lemma bind_Return (m : M A) (k : A -> M B) inv x inv1 :
  m inv = (Return x, inv1) -> bind m k inv = k x inv1.
Proof. intros E. unfold bind. by rewrite E. Qed.

Lemma bind_Raised (m : M A) (k : A -> M B) inv e inv1 :
  m inv = (Raised e, inv1) -> bind m k inv = (Raised e, inv1).
Proof. intros E. unfold bind. by rewrite E. Qed.

Lemma bind_inv_Return (m : M A) (k : A -> M B) inv y inv' :
  bind m k inv = (Return y, inv') ->
  exists x inv1, m inv = (Return x, inv1) /\ k x inv1 = (Return y, inv').
Proof.
  unfold bind. destruct (m inv) as [[x|e] inv1]; [|discriminate].
  intros H. by exists x, inv1.
Qed.

Lemma bind_lift_Return (o : outcome A) (k : A -> M B) inv x :
  o = Return x -> bind (lift o) k inv = k x inv.
Proof. by intros ->. Qed.

Lemma bind_lift_Raised (o : outcome A) (k : A -> M B) inv e :
  o = Raised e -> bind (lift o) k inv = (Raised e, inv).
Proof. by intros ->. Qed.
End Monad.

Lemma for_each_app {X} (l1 l2 : list X) (body : X -> M unit) inv :
  for_each (l1 ++ l2) body inv = (for_each l1 body ;; for_each l2 body) inv.
Proof.
  revert inv. induction l1 as [|x l1 IH]; intros inv; simpl; [reflexivity|].
  unfold bind. destruct (body x inv) as [[[]|e] inv1]; [|reflexivity].
  rewrite IH. reflexivity.
Qed.

(** A loop stops at the first iteration that raises. *)
Lemma for_each_raises {X} (l1 l2 : list X) (body : X -> M unit) x inv inv1 e inv2 :
  for_each l1 body inv = (Return tt, inv1) ->
  body x inv1 = (Raised e, inv2) ->
  for_each (l1 ++ x :: l2) body inv = (Raised e, inv2).
Proof.
  intros E1 E2. rewrite for_each_app. rewrite (bind_Return _ _ _ _ _ E1).
  simpl. by rewrite (bind_Raised _ _ _ _ _ E2).
Qed.

Section Keeps.
Variable R : inventory -> inventory -> Prop.
Hypothesis R_refl : forall inv, R inv inv.
Hypothesis R_trans : forall a b c, R a b -> R b c -> R a c.

Lemma keeps_ret {A} (x : A) : keeps R (ret x).
Proof using R_refl. intros inv r inv' [= <- <-]. apply R_refl. Qed.

Lemma keeps_raise {A} e : keeps R (@raise A e).
Proof using R_refl. intros inv r inv' [= <- <-]. apply R_refl. Qed.

Lemma keeps_lift {A} (o : outcome A) : keeps R (lift o).
Proof using R_refl. intros inv r inv' [= <- <-]. apply R_refl. Qed.

Lemma keeps_bind {A B} (m : M A) (k : A -> M B) :
  keeps R m -> (forall x, keeps R (k x)) -> keeps R (bind m k).
Proof using R_trans.
  intros Hm Hk inv r inv'. unfold bind.
  destruct (m inv) as [[x|e] inv1] eqn:E; intros H.
  - eapply R_trans; [eapply Hm, E | eapply Hk, H].
  - injection H as <- <-. eapply Hm, E.
Qed.

Lemma keeps_for_each {X} (l : list X) (body : X -> M unit) :
  (forall x, keeps R (body x)) -> keeps R (for_each l body).
Proof using R_refl R_trans.
  intros Hb. induction l as [|x l IH]; simpl.
  - apply keeps_ret.
  - apply keeps_bind; [apply Hb | intros _; apply IH].
Qed.
End Keeps.

(* ===================================================================== *)
(** ** The inventory operations on a known store                           *)
(* ===================================================================== *)

Lemma with_vars_with_vars h hv1 hv2 inv :
  with_vars h hv2 (with_vars h hv1 inv) = with_vars h hv2 inv.
Proof. unfold with_vars; simpl. by rewrite insert_insert_eq. Qed.

Lemma hosts_with_vars h hv inv : hosts (with_vars h hv inv) !! h = Some (Host hv).
Proof. apply lookup_insert_eq. Qed.

Lemma hosts_with_vars_ne h h' hv inv :
  h ≠ h' -> hosts (with_vars h hv inv) !! h' = hosts inv !! h'.
Proof. intros Hne. by apply lookup_insert_ne. Qed.

Lemma with_vars_id h hv inv : hosts inv !! h = Some (Host hv) -> with_vars h hv inv = inv.
Proof.
  intros E. destruct inv as [hs gs]; unfold with_vars; simpl in *.
  by rewrite insert_id.
Qed.

Lemma old_vars_with_vars h hv inv : old_vars (with_vars h hv inv) h = hv.
Proof. unfold old_vars. by rewrite hosts_with_vars. Qed.


Lemma add_host_str h inv :
  h ≠ "" -> Inv.add_host (JStr h) inv = (Return h, with_vars h (old_vars inv h) inv).
Proof.
  intros Hne. unfold Inv.add_host, old_vars; simpl.
  destruct (String.eqb_spec h "") as [->|_]; [done|]; simpl.
  destruct (hosts inv !! h) as [[hv]|] eqn:E; [|done].
  by rewrite with_vars_id.
Qed.

Lemma add_host_inv name inv h inv' :
  Inv.add_host name inv = (Return h, inv') -> name = JStr h /\ h ≠ "".
Proof.
  unfold Inv.add_host. destruct (Py.truthy name) eqn:Ht; [|discriminate].
  destruct name as [| | |s| |]; try discriminate.
  simpl in Ht. destruct (String.eqb_spec s "") as [->|Hne]; [discriminate|].
  destruct (hosts inv !! s); intros [= <- _]; done.
Qed.

Lemma set_variable_with_vars h k v hv inv :
  Inv.set_variable h k v (with_vars h hv inv) = (Return tt, with_vars h (<[k := v]> hv) inv).
Proof.
  unfold Inv.set_variable. rewrite hosts_with_vars; simpl.
  f_equal. unfold with_vars; simpl. by rewrite insert_insert_eq.
Qed.

Lemma host_vars_with_vars h hv inv :
  Inv.host_vars h (with_vars h hv inv) = (Return hv, with_vars h hv inv).
Proof. unfold Inv.host_vars. by rewrite hosts_with_vars. Qed.

Lemma for_each_set_variable h l hv inv :
  for_each l (fun item => let '(varname, varval) := item in
                          Inv.set_variable h varname varval) (with_vars h hv inv)
  = (Return tt, with_vars h (assign hv l) inv).
Proof.
  revert hv. induction l as [|[k v] l IH]; intros hv; simpl; [done|].
  erewrite bind_Return by apply set_variable_with_vars. apply IH.
Qed.

(** Later assignments win. *)
Lemma lookup_assign m l k :
  assign m l !! k = match last_binding k l with
                    | Some v => Some v
                    | None => m !! k
                    end.
Proof.
  revert m. induction l as [|[k' v] l IH]; intros m; [done|].
  change (assign m ((k', v) :: l)) with (assign (<[k' := v]> m) l).
  rewrite IH. simpl. destruct (last_binding k l); [done|].
  destruct (decide (k = k')) as [->|Hne].
  - by rewrite lookup_insert_eq.
  - by rewrite lookup_insert_ne.
Qed.

Lemma assign_app m l1 l2 : assign m (l1 ++ l2) = assign (assign m l1) l2.
Proof. apply foldl_app. Qed.

Lemma last_binding_app k l1 l2 :
  last_binding k (l1 ++ l2) = match last_binding k l2 with
                              | Some v => Some v
                              | None => last_binding k l1
                              end.
Proof.
  induction l1 as [|[k' v] l1 IH]; simpl.
  - by destruct (last_binding k l2).
  - rewrite IH. by destruct (last_binding k l2).
Qed.

Lemma last_binding_None k l : last_binding k l = None <-> k ∉ l.*1.
Proof.
  induction l as [|[k' v] l IH]; simpl.
  - split; [intros _; apply not_elem_of_nil | done].
  - rewrite not_elem_of_cons. destruct (last_binding k l) eqn:E.
    + split; [done|]. intros [_ Hn]. by apply IH in Hn.
    + destruct (decide (k = k')) as [->|Hne].
      * split; [done | intros [? _]; done].
      * split; [intros _; split; [done | by apply IH] | done].
Qed.

(* ===================================================================== *)
(** ** Composed variables                                                  *)
(* ===================================================================== *)

Section Compose.
Context {T : Templar}.

Lemma composed_from_keys base entries vs :
  composed_from base entries vs -> vs.*1 = entries.*1.
Proof. induction 1; simpl; [done | by f_equal]. Qed.

(** Under strict evaluation the loop succeeds exactly along
    [composed_from]. *)
Lemma set_composite_vars_strict_Return h entries vs hv inv :
  composed_from hv entries vs ->
  Constructable._set_composite_vars entries (Inv.host_vars h) h true (with_vars h hv inv)
  = (Return tt, with_vars h (assign hv vs) inv).
Proof.
  intros Hc. induction Hc as [base | base k e v rest vs Hv Hc IH]; [done|].
  unfold Constructable._set_composite_vars; simpl.
  erewrite bind_Return; [|
    erewrite bind_Return by apply host_vars_with_vars;
    rewrite Hv; apply set_variable_with_vars].
  apply IH.
Qed.

Lemma set_composite_vars_strict_cases h entries hv inv :
  (exists vs, composed_from hv entries vs) \/
  (exists msg hv',
     Constructable._set_composite_vars entries (Inv.host_vars h) h true (with_vars h hv inv)
     = (Raised (AnsibleError msg), with_vars h hv' inv)).
Proof.
  revert hv. induction entries as [|[k e] rest IH]; intros hv.
  - left. exists []. constructor.
  - destruct (_compose e hv) as [v|err] eqn:Hv.
    + destruct (IH (<[k := v]> hv)) as [[vs Hvs] | (msg & hv' & Hr)].
      * left. exists ((k, v) :: vs). by constructor.
      * right. exists msg, hv'.
        unfold Constructable._set_composite_vars; simpl.
        erewrite bind_Return; [|
          erewrite bind_Return by apply host_vars_with_vars;
          rewrite Hv; apply set_variable_with_vars].
        apply Hr.
    + right. eexists _, hv.
      unfold Constructable._set_composite_vars; simpl.
      erewrite bind_Raised; [reflexivity|].
      erewrite bind_Return by apply host_vars_with_vars.
      rewrite Hv. reflexivity.
Qed.

End Compose.

(* ===================================================================== *)
(** ** [add_node], stage by stage                                          *)
(* ===================================================================== *)

Section AddNode.
Context {T : Templar}.
Import Plugin.

Ltac run_lift H := rewrite (bind_lift_Return _ _ _ _ H).
Ltac run_set := erewrite bind_Return by apply set_variable_with_vars.

(** A node with all its fields reaches line 93 with the derived and the
    static variables assigned, in that order. *)
Lemma add_node_merge cfg node inv h addr labels annotations info :
  node_hostname node = Return (JStr h) -> h ≠ "" ->
  node_address node (opt_address_from cfg) = Return addr ->
  Py.getitem2 node "metadata" "labels" = Return labels ->
  Py.getitem2 node "metadata" "annotations" = Return annotations ->
  Py.getitem2 node "status" "nodeInfo" = Return info ->
  add_node cfg node inv
  = construct cfg h
      (with_vars h (assign (old_vars inv h)
                      (fixed_vars addr labels annotations info ++ opt_vars cfg)) inv).
Proof.
  intros Hn Hne Ha Hl Han Hi. unfold add_node.
  run_lift Hn. run_lift Ha.
  erewrite bind_Return by (by apply add_host_str).
  run_set. run_lift Hl. run_set. run_lift Han. run_set. run_lift Hi. run_set.
  erewrite bind_Return by apply for_each_set_variable.
  rewrite assign_app. reflexivity.
Qed.

(** What a node that was accepted must have had. *)
Lemma add_node_Return_inv cfg node inv inv' :
  add_node cfg node inv = (Return tt, inv') ->
  exists h addr labels annotations info,
    node_hostname node = Return (JStr h) /\ h ≠ "" /\
    node_address node (opt_address_from cfg) = Return addr /\
    Py.getitem2 node "metadata" "labels" = Return labels /\
    Py.getitem2 node "metadata" "annotations" = Return annotations /\
    Py.getitem2 node "status" "nodeInfo" = Return info.
Proof.
  unfold add_node. intros H.
  apply bind_inv_Return in H as (hn & i0 & [= Hn <-] & H).
  apply bind_inv_Return in H as (addr & i1 & [= Ha <-] & H).
  apply bind_inv_Return in H as (h & i2 & Hh & H).
  apply add_host_inv in Hh as [-> Hne].
  apply bind_inv_Return in H as ([] & i3 & _ & H).
  apply bind_inv_Return in H as (labels & i4 & [= Hl _] & H).
  apply bind_inv_Return in H as ([] & i5 & _ & H).
  apply bind_inv_Return in H as (ann & i6 & [= Han _] & H).
  apply bind_inv_Return in H as ([] & i7 & _ & H).
  apply bind_inv_Return in H as (info & i8 & [= Hi _] & H).
  by exists h, addr, labels, ann, info.
Qed.

(** Failures before line 82 leave the store as it was. *)
Lemma add_node_no_hostname cfg node inv e :
  node_hostname node = Raised e -> add_node cfg node inv = (Raised e, inv).
Proof. intros Hn. unfold add_node. by rewrite (bind_lift_Raised _ _ _ _ Hn). Qed.

Lemma add_node_no_address cfg node inv hn e :
  node_hostname node = Return hn ->
  node_address node (opt_address_from cfg) = Raised e ->
  add_node cfg node inv = (Raised e, inv).
Proof.
  intros Hn Ha. unfold add_node. run_lift Hn.
  by rewrite (bind_lift_Raised _ _ _ _ Ha).
Qed.

(** Failures of lines 84-88 come after the host was created. *)
Lemma add_node_no_labels cfg node inv h addr e :
  node_hostname node = Return (JStr h) -> h ≠ "" ->
  node_address node (opt_address_from cfg) = Return addr ->
  Py.getitem2 node "metadata" "labels" = Raised e ->
  add_node cfg node inv
  = (Raised e, with_vars h (assign (old_vars inv h) [("ansible_host", addr)]) inv).
Proof.
  intros Hn Hne Ha Hl. unfold add_node.
  run_lift Hn. run_lift Ha.
  erewrite bind_Return by (by apply add_host_str).
  run_set. by rewrite (bind_lift_Raised _ _ _ _ Hl).
Qed.

Lemma add_node_no_annotations cfg node inv h addr labels e :
  node_hostname node = Return (JStr h) -> h ≠ "" ->
  node_address node (opt_address_from cfg) = Return addr ->
  Py.getitem2 node "metadata" "labels" = Return labels ->
  Py.getitem2 node "metadata" "annotations" = Raised e ->
  add_node cfg node inv
  = (Raised e, with_vars h (assign (old_vars inv h)
                              [("ansible_host", addr); ("node_labels", labels)]) inv).
Proof.
  intros Hn Hne Ha Hl Han. unfold add_node.
  run_lift Hn. run_lift Ha.
  erewrite bind_Return by (by apply add_host_str).
  run_set. run_lift Hl. run_set. by rewrite (bind_lift_Raised _ _ _ _ Han).
Qed.

Lemma add_node_no_info cfg node inv h addr labels annotations e :
  node_hostname node = Return (JStr h) -> h ≠ "" ->
  node_address node (opt_address_from cfg) = Return addr ->
  Py.getitem2 node "metadata" "labels" = Return labels ->
  Py.getitem2 node "metadata" "annotations" = Return annotations ->
  Py.getitem2 node "status" "nodeInfo" = Raised e ->
  add_node cfg node inv
  = (Raised e, with_vars h (assign (old_vars inv h)
                              [("ansible_host", addr); ("node_labels", labels);
                               ("node_annotations", annotations)]) inv).
Proof.
  intros Hn Hne Ha Hl Han Hi. unfold add_node.
  run_lift Hn. run_lift Ha.
  erewrite bind_Return by (by apply add_host_str).
  run_set. run_lift Hl. run_set. run_lift Han. run_set.
  by rewrite (bind_lift_Raised _ _ _ _ Hi).
Qed.
End AddNode.

(* ===================================================================== *)
(** ** Group assignment                                                    *)
(* ===================================================================== *)

Section Groups.
Context {T : Templar}.

Lemma with_groups_id inv : with_groups (groups inv) inv = inv.
Proof. by destruct inv. Qed.

Lemma join_group h g inv :
  is_Some (hosts inv !! h) ->
  (gname <- Inv.add_group g ;; Inv.add_child gname h) inv
  = (Return tt, with_groups (join h g (groups inv)) inv).
Proof.
  intros [hr Hh]. unfold bind, Inv.add_group, Inv.add_child, with_groups, join.
  destruct (groups inv !! g) as [ms|] eqn:Hg; simpl.
  - by rewrite Hg, Hh.
  - rewrite lookup_insert_eq, Hh. by rewrite insert_insert_eq.
Qed.

Lemma join_all_app h l1 l2 gs : join_all h (l1 ++ l2) gs = join_all h l2 (join_all h l1 gs).
Proof. apply foldl_app. Qed.

Lemma elem_of_join h g gs h' g' :
  h' ∈ default ∅ (join h g gs !! g') <->
  h' ∈ default ∅ (gs !! g') \/ (h' = h /\ g' = g).
Proof.
  unfold join. destruct (decide (g = g')) as [<-|Hne].
  - rewrite lookup_insert_eq; simpl. set_solver.
  - rewrite lookup_insert_ne by done. naive_solver.
Qed.

Lemma elem_of_join_all h targets gs h' g' :
  h' ∈ default ∅ (join_all h targets gs !! g') <->
  h' ∈ default ∅ (gs !! g') \/ (h' = h /\ g' ∈ targets).
Proof.
  revert gs. induction targets as [|g targets IH]; intros gs; simpl.
  - set_solver.
  - rewrite IH, elem_of_join, elem_of_cons. naive_solver.
Qed.

(** Without strictness, or without a failing predicate, the composed
    groups are exactly [composed_targets]. *)
Lemma composed_groups_Return strict h entries hv inv :
  hosts inv !! h = Some (Host hv) ->
  strict = false \/ composed_error hv entries = false ->
  Constructable._add_host_to_composed_groups entries (Inv.host_vars h) h strict inv
  = (Return tt, with_groups (join_all h (composed_targets hv entries) (groups inv)) inv).
Proof.
  intros Hh. revert inv Hh. induction entries as [|[g c] rest IH]; intros inv Hh Hs.
  - simpl. by rewrite with_groups_id.
  - assert (Hs' : strict = false \/ composed_error hv rest = false).
    { destruct Hs as [?|Hs]; [by left | right].
      simpl in Hs. by apply orb_false_elim in Hs as [_ ?]. }
    unfold Constructable._add_host_to_composed_groups, composed_targets, composed_error in *.
    simpl in *.
    assert (Hv : Inv.host_vars h inv = (Return hv, inv))
      by (unfold Inv.host_vars; by rewrite Hh).
    destruct (template_conditional c hv) as [[|]|e] eqn:Hc; simpl.
    + erewrite bind_Return; [|
        erewrite bind_Return by apply Hv; rewrite Hc; by apply join_group].
      rewrite IH by done. done.
    + erewrite bind_Return; [|
        erewrite bind_Return by apply Hv; rewrite Hc; reflexivity].
      by apply IH.
    + destruct Hs as [->|Hs]; [|done].
      erewrite bind_Return; [|
        erewrite bind_Return by apply Hv; rewrite Hc; reflexivity].
      by apply IH.
Qed.

(** With strictness, a failing predicate stops the host there. *)
Lemma composed_groups_Raised h entries hv inv :
  hosts inv !! h = Some (Host hv) ->
  composed_error hv entries = true ->
  exists msg gs,
    Constructable._add_host_to_composed_groups entries (Inv.host_vars h) h true inv
    = (Raised (AnsibleParserError msg), with_groups gs inv).
Proof.
  intros Hh. revert inv Hh. induction entries as [|[g c] rest IH]; intros inv Hh He.
  - discriminate.
  - unfold Constructable._add_host_to_composed_groups, composed_error in *. simpl in *.
    assert (Hv : Inv.host_vars h inv = (Return hv, inv))
      by (unfold Inv.host_vars; by rewrite Hh).
    destruct (template_conditional c hv) as [[|]|e] eqn:Hc; simpl in He.
    + destruct (IH (with_groups (join h g (groups inv)) inv) Hh He) as (msg & gs & Hr).
      exists msg, gs.
      erewrite bind_Return; [|
        erewrite bind_Return by apply Hv; rewrite Hc; by apply join_group].
      apply Hr.
    + destruct (IH inv Hh He) as (msg & gs & Hr). exists msg, gs.
      erewrite bind_Return; [|
        erewrite bind_Return by apply Hv; rewrite Hc; reflexivity].
      apply Hr.
    + eexists _, (groups inv). rewrite with_groups_id.
      erewrite bind_Raised; [reflexivity|].
      erewrite bind_Return by apply Hv. rewrite Hc. reflexivity.
Qed.
End Groups.

Section KeyedGroups.
Context {T : Templar}.

Ltac iterate Hv Hc tac :=
  erewrite bind_Return; [| erewrite bind_Return by apply Hv; rewrite Hc; tac].

Lemma keyed_groups_Return strict h keys hv inv :
  hosts inv !! h = Some (Host hv) ->
  strict = false \/ keyed_error hv keys = false ->
  Constructable._add_host_to_keyed_groups keys (Inv.host_vars h) h strict inv
  = (Return tt, with_groups (join_all h (keyed_targets hv keys) (groups inv)) inv).
Proof.
  intros Hh. revert inv Hh. induction keys as [|keyed rest IH]; intros inv Hh Hs.
  - simpl. by rewrite with_groups_id.
  - assert (Hs' : strict = false \/ keyed_error hv rest = false).
    { destruct Hs as [?|Hs]; [by left | right].
      simpl in Hs. by apply orb_false_elim in Hs as [_ ?]. }
    unfold Constructable._add_host_to_keyed_groups, keyed_targets, keyed_error in *.
    simpl in *.
    assert (Hv : Inv.host_vars h inv = (Return hv, inv))
      by (unfold Inv.host_vars; by rewrite Hh).
    destruct (_compose (key keyed) hv) as [v|e] eqn:Hc.
    + destruct v as [| | |value| |];
        try (destruct Hs as [->|Hs]; [|done];
             iterate Hv Hc ltac:(reflexivity); by apply IH).
      destruct (Constructable.keyed_group_name keyed value) as [gname|] eqn:Hg; simpl.
      * iterate Hv Hc ltac:(rewrite Hg; by apply join_group).
        rewrite IH by done. done.
      * iterate Hv Hc ltac:(rewrite Hg; reflexivity). by apply IH.
    + destruct Hs as [->|Hs]; [|done]. simpl.
      iterate Hv Hc ltac:(reflexivity). by apply IH.
Qed.

Lemma keyed_groups_Raised h keys hv inv :
  hosts inv !! h = Some (Host hv) ->
  keyed_error hv keys = true ->
  exists msg gs,
    Constructable._add_host_to_keyed_groups keys (Inv.host_vars h) h true inv
    = (Raised (AnsibleParserError msg), with_groups gs inv).
Proof.
  intros Hh. revert inv Hh. induction keys as [|keyed rest IH]; intros inv Hh He.
  - discriminate.
  - unfold Constructable._add_host_to_keyed_groups, keyed_error in *. simpl in *.
    assert (Hv : Inv.host_vars h inv = (Return hv, inv))
      by (unfold Inv.host_vars; by rewrite Hh).
    destruct (_compose (key keyed) hv) as [v|e] eqn:Hc.
    + destruct v as [| | |value| |];
        try (eexists _, (groups inv); rewrite with_groups_id;
             erewrite bind_Raised; [reflexivity|];
             erewrite bind_Return by apply Hv; rewrite Hc; reflexivity).
      simpl in He.
      destruct (Constructable.keyed_group_name keyed value) as [gname|] eqn:Hg.
      * destruct (IH (with_groups (join h gname (groups inv)) inv) Hh He) as (msg & gs & Hr).
        exists msg, gs.
        iterate Hv Hc ltac:(rewrite Hg; by apply join_group).
        apply Hr.
      * destruct (IH inv Hh He) as (msg & gs & Hr). exists msg, gs.
        iterate Hv Hc ltac:(rewrite Hg; reflexivity).
        apply Hr.
    + eexists _, (groups inv). rewrite with_groups_id.
      erewrite bind_Raised; [reflexivity|].
      erewrite bind_Return by apply Hv. rewrite Hc. reflexivity.
Qed.
End KeyedGroups.

(* ===================================================================== *)
(** ** What each statement leaves alone                                    *)
(* ===================================================================== *)

Lemma only_refl h inv : only h inv inv.
Proof. by intros h' _. Qed.

Lemma only_trans h a b c : only h a b -> only h b c -> only h a c.
Proof. intros H1 H2 h' Hne. by rewrite H2, H1. Qed.

Lemma same_hosts_refl inv : same_hosts inv inv.
Proof. done. Qed.

Lemma same_hosts_trans a b c : same_hosts a b -> same_hosts b c -> same_hosts a c.
Proof. unfold same_hosts. congruence. Qed.

Lemma same_hosts_only h a b : same_hosts a b -> only h a b.
Proof. intros E h' _. by rewrite E. Qed.

Lemma keeps_weaken {A} (R R' : inventory -> inventory -> Prop) (m : M A) :
  (forall a b, R a b -> R' a b) -> keeps R m -> keeps R' m.
Proof. intros HR Hm inv r inv' E. eapply HR, Hm, E. Qed.

Lemma only_with_vars h hv inv : only h inv (with_vars h hv inv).
Proof. intros h' Hne. by apply hosts_with_vars_ne. Qed.

Lemma keeps_set_variable h k v : keeps (only h) (Inv.set_variable h k v).
Proof.
  intros inv r inv'. unfold Inv.set_variable.
  destruct (hosts inv !! h); intros [= <- <-]; [|apply only_refl].
  intros h' Hne; simpl. by apply lookup_insert_ne.
Qed.

Lemma keeps_host_vars h : keeps same_hosts (Inv.host_vars h).
Proof.
  intros inv r inv'. unfold Inv.host_vars.
  destruct (hosts inv !! h); by intros [= <- <-].
Qed.

Lemma keeps_add_group g : keeps same_hosts (Inv.add_group g).
Proof.
  intros inv r inv'. unfold Inv.add_group.
  destruct (groups inv !! g); by intros [= <- <-].
Qed.

Lemma keeps_add_child g h : keeps same_hosts (Inv.add_child g h).
Proof.
  intros inv r inv'. unfold Inv.add_child.
  destruct (groups inv !! g), (hosts inv !! h); by intros [= <- <-].
Qed.

Lemma add_host_Raised name inv e inv' :
  Inv.add_host name inv = (Raised e, inv') -> inv' = inv.
Proof.
  unfold Inv.add_host. destruct (Py.truthy name); [|by intros [= _ <-]].
  destruct name; try by intros [= _ <-].
  destruct (hosts inv !! s); discriminate.
Qed.

Create HintDb frames.

Section Frames.
Context {T : Templar}.

Local Hint Resolve same_hosts_refl same_hosts_trans only_refl only_trans : frames.

Ltac primitive :=
  first [ apply keeps_host_vars | apply keeps_add_group | apply keeps_add_child ].

Ltac frame R :=
  repeat first
    [ apply (keeps_ret R); eauto with frames
    | apply (keeps_raise R); eauto with frames
    | apply (keeps_lift R); eauto with frames
    | primitive
    | apply keeps_set_variable
    | apply (keeps_weaken same_hosts R); [by apply same_hosts_only | primitive]
    | apply (keeps_for_each R); [eauto with frames | eauto with frames | intros ?]
    | apply (keeps_bind R); [eauto with frames | | intros ?]
    | match goal with |- keeps _ (let '(_, _) := ?p in _) => destruct p end
    | match goal with |- keeps _ (match ?o with _ => _ end) => destruct o end ].

Lemma keeps_composed_groups entries h strict :
  keeps same_hosts
    (Constructable._add_host_to_composed_groups entries (Inv.host_vars h) h strict).
Proof. unfold Constructable._add_host_to_composed_groups. frame same_hosts. Qed.

Lemma keeps_keyed_groups keys h strict :
  keeps same_hosts
    (Constructable._add_host_to_keyed_groups keys (Inv.host_vars h) h strict).
Proof. unfold Constructable._add_host_to_keyed_groups. frame same_hosts. Qed.

Lemma keeps_set_composite_vars entries h strict :
  keeps (only h) (Constructable._set_composite_vars entries (Inv.host_vars h) h strict).
Proof. unfold Constructable._set_composite_vars. frame (only h). Qed.

Lemma keeps_construct cfg h : keeps (only h) (construct cfg h).
Proof.
  unfold construct.
  apply (keeps_bind (only h)); [apply only_trans | apply keeps_set_composite_vars | intros _].
  apply (keeps_weaken same_hosts); [apply same_hosts_only|].
  apply (keeps_bind same_hosts);
    [apply same_hosts_trans | apply keeps_composed_groups | intros _].
  apply keeps_keyed_groups.
Qed.

(** [add_node] changes no host but the one the node names. *)
Lemma add_node_frame cfg node inv r inv' h' :
  Plugin.add_node cfg node inv = (r, inv') ->
  Plugin.node_hostname node ≠ Return (JStr h') ->
  hosts inv' !! h' = hosts inv !! h'.
Proof.
  unfold Plugin.add_node. intros H Hne.
  destruct (Plugin.node_hostname node) as [hn|e] eqn:Hn;
    [rewrite (bind_lift_Return _ _ _ hn eq_refl) in H
    | rewrite (bind_lift_Raised _ _ _ e eq_refl) in H; by injection H as <- <-].
  destruct (Plugin.node_address node (opt_address_from cfg)) as [addr|e] eqn:Ha;
    [rewrite (bind_lift_Return _ _ _ addr eq_refl) in H
    | rewrite (bind_lift_Raised _ _ _ e eq_refl) in H; by injection H as <- <-].
  destruct (Inv.add_host hn inv) as [[h|e] inv0] eqn:Hh.
  - rewrite (bind_Return _ _ _ _ _ Hh) in H.
    pose proof (add_host_inv _ _ _ _ Hh) as [-> Hnz].
    rewrite add_host_str in Hh by done. injection Hh as <-.
    assert (h' ≠ h) by congruence.
    transitivity (hosts (with_vars h (old_vars inv h) inv) !! h');
      [|by apply hosts_with_vars_ne].
    revert H. generalize (with_vars h (old_vars inv h) inv). intros inv0 H.
    clear Hne. revert inv0 r inv' H h' H0.
    change (keeps (only h)
      (Inv.set_variable h "ansible_host" addr ;;
       node_labels <- lift (Py.getitem2 node "metadata" "labels") ;;
       Inv.set_variable h "node_labels" node_labels ;;
       node_annotations <- lift (Py.getitem2 node "metadata" "annotations") ;;
       Inv.set_variable h "node_annotations" node_annotations ;;
       node_info <- lift (Py.getitem2 node "status" "nodeInfo") ;;
       Inv.set_variable h "node_info" node_info ;;
       for_each (opt_vars cfg) (fun item =>
         let '(varname, varval) := item in Inv.set_variable h varname varval) ;;
       construct cfg h)).
    frame (only h).
  - rewrite (bind_Raised _ _ _ _ _ Hh) in H. injection H as <- <-.
    by rewrite (add_host_Raised _ _ _ _ Hh).
Qed.

End Frames.

(* ===================================================================== *)
(** ** Accepted nodes                                                      *)
(* ===================================================================== *)

Section Accepted.
Context {T : Templar}.

(** The store an accepted node leaves: the hosts as before, with the
    node's host holding the three steps' assignments over what it held. *)
Lemma add_node_accepted cfg node inv inv' :
  Plugin.add_node cfg node inv = (Return tt, inv') ->
  exists h addr labels annotations info composed,
    Plugin.node_hostname node = Return (JStr h) /\ h ≠ "" /\
    Plugin.node_address node (opt_address_from cfg) = Return addr /\
    Py.getitem2 node "metadata" "labels" = Return labels /\
    Py.getitem2 node "metadata" "annotations" = Return annotations /\
    Py.getitem2 node "status" "nodeInfo" = Return info /\
    composed_from
      (assign (old_vars inv h) (fixed_vars addr labels annotations info ++ opt_vars cfg))
      (opt_compose cfg) composed /\
    hosts inv'
    = <[h := Host (assign (old_vars inv h)
                     (fixed_vars addr labels annotations info ++ opt_vars cfg ++ composed))]>
        (hosts inv).
Proof.
  intros H.
  destruct (add_node_Return_inv _ _ _ _ H)
    as (h & addr & labels & ann & info & Hn & Hne & Ha & Hl & Han & Hi).
  rewrite (add_node_merge _ _ _ _ _ _ _ _ Hn Hne Ha Hl Han Hi) in H.
  set (base := assign (old_vars inv h) (fixed_vars addr labels ann info ++ opt_vars cfg)) in *.
  unfold construct in H.
  destruct (set_composite_vars_strict_cases h (opt_compose cfg) base inv)
    as [[vs Hvs] | (msg & hv' & Hr)].
  - exists h, addr, labels, ann, info, vs. repeat (split; [done|]).
    rewrite (bind_Return _ _ _ _ _ (set_composite_vars_strict_Return h _ _ _ inv Hvs)) in H.
    assert (Hk : keeps same_hosts
      (Constructable._add_host_to_composed_groups (opt_groups cfg) (Inv.host_vars h) h
         (opt_strict cfg) ;;
       Constructable._add_host_to_keyed_groups (opt_keyed_groups cfg) (Inv.host_vars h) h
         (opt_strict cfg))).
    { apply (keeps_bind same_hosts);
        [apply same_hosts_trans | apply keeps_composed_groups | intros _].
      apply keeps_keyed_groups. }
    rewrite (Hk _ _ _ H). unfold base. simpl hosts.
    by rewrite app_assoc, (assign_app _ (_ ++ _)).
  - by rewrite (bind_Raised _ _ _ _ _ Hr) in H.
Qed.
End Accepted.

(* ===================================================================== *)
(** ** Address resolution                                                  *)
(* ===================================================================== *)

Lemma next_address_first_of_kind entries record preferred :
  Forall2 (fun entry kv => is_address entry kv.1 kv.2) entries record ->
  obind (Plugin.next_address entries preferred) (fun addr => Py.getitem addr "address")
  = match first_of_kind preferred record with
    | Some value => Return value
    | None => Raised StopIteration
    end.
Proof.
  induction 1 as [|entry [kind value] entries record [Hty Hval] _ IH]; simpl; [done|].
  rewrite Hty; simpl. destruct (String.eqb kind preferred); [done | apply IH].
Qed.

(** C3. Address resolution: on a node whose [status.addresses] lists
    (kind, value) entries, the resolver returns the value of the first
    entry of the preferred kind, which an accepted node then carries as
    [ansible_host] (unless a configured variable of that name overrides
    it); when no entry is of the preferred kind it raises [StopIteration]
    (the spec's AddressNotFound), and [add_node] raises it for that node
    before any host is created. *)
Theorem address_resolution {T : Templar} (node : json) (entries : list json)
    (record : list (string * json)) (preferred : string) :
  Py.getitem2 node "status" "addresses" = Return (JList entries) ->
  Forall2 (fun entry kv => is_address entry kv.1 kv.2) entries record ->
  match first_of_kind preferred record with
  | Some value =>
      Plugin.node_address node preferred = Return value /\
      forall cfg inv inv',
        opt_address_from cfg = preferred ->
        "ansible_host" ∉ (opt_vars cfg).*1 ->
        "ansible_host" ∉ (opt_compose cfg).*1 ->
        Plugin.add_node cfg node inv = (Return tt, inv') ->
        exists h hv,
          Plugin.node_hostname node = Return (JStr h) /\
          hosts inv' !! h = Some (Host hv) /\
          hv !! "ansible_host" = Some value
  | None =>
      Plugin.node_address node preferred = Raised StopIteration /\
      forall cfg inv hn,
        opt_address_from cfg = preferred ->
        Plugin.node_hostname node = Return hn ->
        Plugin.add_node cfg node inv = (Raised StopIteration, inv)
  end.
Proof.
  intros Hl Hf.
  assert (E : Plugin.node_address node preferred
              = match first_of_kind preferred record with
                | Some value => Return value
                | None => Raised StopIteration
                end).
  { unfold Plugin.node_address. rewrite Hl; simpl.
    by apply next_address_first_of_kind. }
  destruct (first_of_kind preferred record) as [value|].
  - split; [done|]. intros cfg inv inv' <- Hs Hc H.
    destruct (add_node_accepted _ _ _ _ H)
      as (h & addr & labels & ann & info & composed & Hn & _ & Ha & _ & _ & _ & Hcf & Hh).
    rewrite E in Ha. injection Ha as <-.
    eexists h, _. split; [done|]. split; [rewrite Hh; apply lookup_insert_eq|].
    rewrite lookup_assign, !last_binding_app.
    apply composed_from_keys in Hcf. rewrite <- Hcf in Hc.
    apply last_binding_None in Hc, Hs. by rewrite Hc, Hs.
  - split; [done|]. intros cfg inv hn <- Hn.
    by apply (add_node_no_address _ _ _ hn).
Qed.

Lemma address_resolution_witness :
  let record := [("InternalIP", JStr "10.0.0.1"); ("Hostname", JStr "n1")] in
  let entries := [address_entry "InternalIP" "10.0.0.1"; address_entry "Hostname" "n1"] in
  let node := mk_node "n1" entries [] in
  Py.getitem2 node "status" "addresses" = Return (JList entries) /\
  Forall2 (fun entry kv => is_address entry kv.1 kv.2) entries record /\
  Plugin.node_address node "InternalIP" = Return (JStr "10.0.0.1") /\
  Plugin.node_address node "Hostname" = Return (JStr "n1") /\
  Plugin.node_address (mk_node "n1" [address_entry "Hostname" "n1"] []) "InternalIP"
  = Raised StopIteration.
Proof.
  intros record entries node.
  assert (Hl : Py.getitem2 node "status" "addresses" = Return (JList entries))
    by reflexivity.
  assert (Hf : Forall2 (fun entry kv => is_address entry kv.1 kv.2) entries record)
    by (repeat constructor).
  split; [exact Hl|]. split; [exact Hf|].
  split; [|split].
  - exact (proj1 (address_resolution (T := PathTemplar.templar)
                    node entries record "InternalIP" Hl Hf)).
  - exact (proj1 (address_resolution (T := PathTemplar.templar)
                    node entries record "Hostname" Hl Hf)).
  - refine (proj1 (address_resolution (T := PathTemplar.templar)
                    (mk_node "n1" [address_entry "Hostname" "n1"] [])
                    [address_entry "Hostname" "n1"] [("Hostname", JStr "n1")]
                    "InternalIP" eq_refl _)).
    repeat constructor.
Defined.

(* ===================================================================== *)
(** ** Variable precedence                                                 *)
(* ===================================================================== *)



(* ===================================================================== *)
(** ** Nodes with missing fields                                           *)
(* ===================================================================== *)

Lemma lacks_getitem2 obj a b : lacks obj a b -> Py.getitem2 obj a b = Raised (KeyError b).
Proof.
  intros (inner & Ha & Hb). unfold Py.getitem2. rewrite Ha; simpl. by rewrite Hb.
Qed.

(** The loop of [add_nodes], once the node source has answered. *)
Lemma add_nodes_for_each {T : Templar} {K : NodeSource} cfg nodes inv :
  Plugin.get_nodes (opt_node_selectors cfg) = Return (JList nodes) ->
  Plugin.add_nodes cfg inv = for_each nodes (Plugin.add_node cfg) inv.
Proof. intros E. unfold Plugin.add_nodes. by rewrite E. Qed.

(** C2, as the code has it. A node whose description lacks
    [metadata.name] is not skipped: [add_node] raises [KeyError] for
    ["name"] before it writes anything, [add_nodes] does not catch it, and
    the build stops there with that error; the nodes listed before it have
    been added, those after it are not processed. *)
Theorem nameless_node_aborts {T : Templar} {K : NodeSource} (cfg : options)
    (before after : list json) (node : json) (inv inv1 : inventory) :
  Plugin.get_nodes (opt_node_selectors cfg) = Return (JList (before ++ node :: after)) ->
  lacks node "metadata" "name" ->
  for_each before (Plugin.add_node cfg) inv = (Return tt, inv1) ->
  Plugin.add_node cfg node inv1 = (Raised (KeyError "name"), inv1) /\
  Plugin.add_nodes cfg inv = (Raised (KeyError "name"), inv1).
Proof.
  intros Hg Hl Hb.
  assert (Hn : Plugin.add_node cfg node inv1 = (Raised (KeyError "name"), inv1))
    by (apply add_node_no_hostname; by apply lacks_getitem2).
  split; [done|].
  rewrite (add_nodes_for_each _ _ _ Hg). by apply (for_each_raises _ _ _ _ _ inv1).
Qed.

Lemma nameless_node_aborts_witness :
  let T := PathTemplar.templar in
  let K := fixed_source (node_list [edge_node; nameless_node; second_node]) in
  let inv1 := (for_each [edge_node] (Plugin.add_node default_options) empty_inventory).2 in
  Plugin.get_nodes (opt_node_selectors default_options)
  = Return (JList ([edge_node] ++ nameless_node :: [second_node])) /\
  lacks nameless_node "metadata" "name" /\
  for_each [edge_node] (Plugin.add_node default_options) empty_inventory = (Return tt, inv1) /\
  Plugin.add_nodes default_options empty_inventory = (Raised (KeyError "name"), inv1) /\
  size (hosts inv1) = 1.
Proof.
  intros T K inv1.
  assert (Hg : Plugin.get_nodes (opt_node_selectors default_options)
               = Return (JList ([edge_node] ++ nameless_node :: [second_node])))
    by reflexivity.
  assert (Hl : lacks nameless_node "metadata" "name") by (eexists; split; reflexivity).
  assert (Hb : for_each [edge_node] (Plugin.add_node default_options) empty_inventory
               = (Return tt, inv1)) by (vm_compute; reflexivity).
  split; [exact Hg|]. split; [exact Hl|]. split; [exact Hb|].
  split; [|vm_compute; reflexivity].
  exact (proj2 (nameless_node_aborts default_options [edge_node] [second_node]
                  nameless_node empty_inventory inv1 Hg Hl Hb)).
Defined.

(** C2 as stated fails: of three nodes the first of which lacks
    [metadata.name], the build produces no host and fails as a whole. *)
Lemma nameless_node_counterexample :
  let T := PathTemplar.templar in
  let K := fixed_source (node_list [nameless_node; edge_node; second_node]) in
  let run := Plugin.add_nodes default_options empty_inventory in
  lacks nameless_node "metadata" "name" /\
  Plugin.node_hostname edge_node = Return (JStr "n1") /\
  Plugin.node_hostname second_node = Return (JStr "n2") /\
  run = (Raised (KeyError "name"), empty_inventory) /\
  ~ (run.1 = Return tt /\ size (hosts run.2) = 2).
Proof.
  intros T K run.
  split; [eexists; split; reflexivity|].
  split; [reflexivity|]. split; [reflexivity|].
  assert (E : run = (Raised (KeyError "name"), empty_inventory)) by (vm_compute; reflexivity).
  split; [exact E|]. rewrite E. intros [? _]. discriminate.
Qed.

(** C6, as the code has it. A node that has [metadata.name] but lacks an
    optional field is not normalized: [add_node] raises [KeyError] for the
    missing field.  Without [status.addresses] nothing is written; without
    [metadata.labels], [metadata.annotations] or [status.nodeInfo] the
    host has been created and holds the variables assigned up to there.
    The error leaves the loop over the nodes. *)
Theorem missing_field_raises {T : Templar} (cfg : options) (node : json)
    (h : string) (inv : inventory) :
  Plugin.node_hostname node = Return (JStr h) -> h ≠ "" ->
  (lacks node "status" "addresses" ->
   Plugin.add_node cfg node inv = (Raised (KeyError "addresses"), inv)) /\
  (forall addr,
     Plugin.node_address node (opt_address_from cfg) = Return addr ->
     (lacks node "metadata" "labels" ->
      Plugin.add_node cfg node inv
      = (Raised (KeyError "labels"),
         with_vars h (assign (old_vars inv h) [("ansible_host", addr)]) inv)) /\
     (forall labels,
        Py.getitem2 node "metadata" "labels" = Return labels ->
        (lacks node "metadata" "annotations" ->
         Plugin.add_node cfg node inv
         = (Raised (KeyError "annotations"),
            with_vars h (assign (old_vars inv h)
                           [("ansible_host", addr); ("node_labels", labels)]) inv)) /\
        (forall annotations,
           Py.getitem2 node "metadata" "annotations" = Return annotations ->
           lacks node "status" "nodeInfo" ->
           Plugin.add_node cfg node inv
           = (Raised (KeyError "nodeInfo"),
              with_vars h (assign (old_vars inv h)
                             [("ansible_host", addr); ("node_labels", labels);
                              ("node_annotations", annotations)]) inv)))) /\
  (forall e inv' rest,
     Plugin.add_node cfg node inv = (Raised e, inv') ->
     for_each (node :: rest) (Plugin.add_node cfg) inv = (Raised e, inv')).
Proof.
  intros Hn Hne. split; [|split].
  - intros Hl. apply (add_node_no_address _ _ _ (JStr h)); [done|].
    unfold Plugin.node_address. by rewrite (lacks_getitem2 _ _ _ Hl).
  - intros addr Ha. split; [|intros labels Hl; split].
    + intros Hl. apply add_node_no_labels; try done. by apply lacks_getitem2.
    + intros Han. apply add_node_no_annotations; try done. by apply lacks_getitem2.
    + intros ann Han Hi. apply add_node_no_info; try done. by apply lacks_getitem2.
  - intros e inv' rest H. simpl. by rewrite (bind_Raised _ _ _ _ _ H).
Qed.

Lemma missing_field_raises_witness :
  let T := PathTemplar.templar in
  Plugin.node_hostname unlabelled_node = Return (JStr "n4") /\
  "n4" ≠ "" /\
  Plugin.node_address unlabelled_node (opt_address_from default_options)
  = Return (JStr "10.0.0.4") /\
  lacks unlabelled_node "metadata" "labels" /\
  for_each [unlabelled_node; edge_node] (Plugin.add_node default_options) empty_inventory
  = (Raised (KeyError "labels"),
     with_vars "n4" (assign ∅ [("ansible_host", JStr "10.0.0.4")]) empty_inventory).
Proof.
  intros T.
  assert (Hn : Plugin.node_hostname unlabelled_node = Return (JStr "n4")) by reflexivity.
  assert (Hne : "n4" ≠ "") by discriminate.
  assert (Ha : Plugin.node_address unlabelled_node (opt_address_from default_options)
               = Return (JStr "10.0.0.4")) by reflexivity.
  assert (Hl : lacks unlabelled_node "metadata" "labels") by (eexists; split; reflexivity).
  split; [exact Hn|]. split; [exact Hne|]. split; [exact Ha|]. split; [exact Hl|].
  destruct (missing_field_raises default_options unlabelled_node "n4" empty_inventory Hn Hne)
    as (_ & Hfields & Hloop).
  apply Hloop. exact (proj1 (Hfields _ Ha) Hl).
Defined.

(** C6 as stated fails: a node with a name and an address but no
    [metadata.labels] is fatal, to the node and to the build. *)
Lemma missing_field_counterexample :
  let T := PathTemplar.templar in
  let K := fixed_source (node_list [unlabelled_node]) in
  Plugin.node_hostname unlabelled_node = Return (JStr "n4") /\
  lacks unlabelled_node "metadata" "labels" /\
  (Plugin.add_node default_options unlabelled_node empty_inventory).1
  = Raised (KeyError "labels") /\
  (Plugin.add_nodes default_options empty_inventory).1 = Raised (KeyError "labels").
Proof.
  intros T K. split; [reflexivity|]. split; [eexists; split; reflexivity|].
  split; vm_compute; reflexivity.
Qed.

(* ===================================================================== *)
(** ** Composed variables are always strict                                *)
(* ===================================================================== *)



(* ===================================================================== *)
(** ** Group assignment: order and strictness                              *)
(* ===================================================================== *)

(** C5. Group assignment.  Let [inv1] be the store once the node's
    variables, composed ones included, are in place, and [hv] the host's
    variables there.  Then [add_node] runs the composed groups and after
    them the keyed groups, on [inv1], both with the configured strictness
    flag.  When the flag is off, or nothing fails, the node is accepted,
    the host joins exactly the groups whose predicate holds of [hv] and
    the groups its keys derive from [hv], failing pairs are skipped, and
    the loop goes on to the next node.  When the flag is on and a
    predicate or a key fails, [add_node] raises [AnsibleParserError] and
    the loop ends with it. *)
Theorem group_assignment {T : Templar} (cfg : options) (node : json)
    (inv inv1 : inventory) :
  Plugin.add_node (without_groups cfg) node inv = (Return tt, inv1) ->
  exists h hv,
    Plugin.node_hostname node = Return (JStr h) /\
    hosts inv1 !! h = Some (Host hv) /\
    Plugin.add_node cfg node inv
    = (Constructable._add_host_to_composed_groups (opt_groups cfg) (Inv.host_vars h) h
         (opt_strict cfg) ;;
       Constructable._add_host_to_keyed_groups (opt_keyed_groups cfg) (Inv.host_vars h) h
         (opt_strict cfg)) inv1 /\
    (opt_strict cfg = false \/
     (composed_error hv (opt_groups cfg) = false /\
      keyed_error hv (opt_keyed_groups cfg) = false) ->
     exists inv',
       Plugin.add_node cfg node inv = (Return tt, inv') /\
       hosts inv' = hosts inv1 /\
       (forall g h',
          h' ∈ members inv' g <->
          h' ∈ members inv1 g \/
          (h' = h /\ (g ∈ composed_targets hv (opt_groups cfg) \/
                      g ∈ keyed_targets hv (opt_keyed_groups cfg)))) /\
       (forall rest,
          for_each (node :: rest) (Plugin.add_node cfg) inv
          = for_each rest (Plugin.add_node cfg) inv')) /\
    (opt_strict cfg = true ->
     composed_error hv (opt_groups cfg) = true \/
     keyed_error hv (opt_keyed_groups cfg) = true ->
     exists msg inv',
       Plugin.add_node cfg node inv = (Raised (AnsibleParserError msg), inv') /\
       (forall rest,
          for_each (node :: rest) (Plugin.add_node cfg) inv
          = (Raised (AnsibleParserError msg), inv'))).
Proof.
  intros H.
  destruct (add_node_Return_inv _ _ _ _ H)
    as (h & addr & labels & ann & info & Hn & Hne & Ha & Hl & Han & Hi).
  rewrite (add_node_merge _ _ _ _ _ _ _ _ Hn Hne Ha Hl Han Hi) in H.
  simpl in Ha. unfold construct in H. simpl opt_compose in H. simpl opt_vars in H.
  set (base := assign (old_vars inv h) (fixed_vars addr labels ann info ++ opt_vars cfg)) in *.
  destruct (set_composite_vars_strict_cases h (opt_compose cfg) base inv)
    as [[vs Hvs] | (msg & hv' & Hr)]; [|by rewrite (bind_Raised _ _ _ _ _ Hr) in H].
  pose proof (set_composite_vars_strict_Return h _ _ _ inv Hvs) as Hc.
  rewrite (bind_Return _ _ _ _ _ Hc) in H. injection H as <-.
  set (hv := assign base vs) in *.
  assert (Hh : hosts (with_vars h hv inv) !! h = Some (Host hv)) by apply hosts_with_vars.
  assert (E : Plugin.add_node cfg node inv
    = (Constructable._add_host_to_composed_groups (opt_groups cfg) (Inv.host_vars h) h
         (opt_strict cfg) ;;
       Constructable._add_host_to_keyed_groups (opt_keyed_groups cfg) (Inv.host_vars h) h
         (opt_strict cfg)) (with_vars h hv inv)).
  { rewrite (add_node_merge _ _ _ _ _ _ _ _ Hn Hne Ha Hl Han Hi). unfold construct.
    by rewrite (bind_Return _ _ _ _ _ Hc). }
  exists h, hv. split; [done|]. split; [done|]. split; [done|]. split.
  - intros Hok.
    assert (Hcg : opt_strict cfg = false \/ composed_error hv (opt_groups cfg) = false)
      by (destruct Hok as [?|[? _]]; auto).
    assert (Hkg : opt_strict cfg = false \/ keyed_error hv (opt_keyed_groups cfg) = false)
      by (destruct Hok as [?|[_ ?]]; auto).
    pose proof (composed_groups_Return _ h _ hv _ Hh Hcg) as R1.
    set (inv2 := with_groups (join_all h (composed_targets hv (opt_groups cfg))
                                (groups (with_vars h hv inv))) (with_vars h hv inv)) in *.
    pose proof (keyed_groups_Return (opt_strict cfg) h (opt_keyed_groups cfg) hv inv2 Hh Hkg)
      as R2.
    assert (E' : Plugin.add_node cfg node inv
                 = (Return tt, with_groups (join_all h (keyed_targets hv (opt_keyed_groups cfg))
                                              (groups inv2)) inv2)).
    { rewrite E. by rewrite (bind_Return _ _ _ _ _ R1). }
    eexists. split; [exact E'|]. split; [done|]. split.
    + intros g h'. unfold members; simpl. rewrite !elem_of_join_all. naive_solver.
    + intros rest. simpl. by rewrite (bind_Return _ _ _ _ _ E').
  - intros Hs Herr. rewrite Hs in E.
    assert (exists msg inv',
      Plugin.add_node cfg node inv = (Raised (AnsibleParserError msg), inv'))
      as (msg & inv' & E').
    { destruct (composed_error hv (opt_groups cfg)) eqn:Hce.
      - destruct (composed_groups_Raised h _ hv _ Hh Hce) as (msg & gs & R1).
        exists msg, (with_groups gs (with_vars h hv inv)).
        rewrite E. by rewrite (bind_Raised _ _ _ _ _ R1).
      - destruct Herr as [?|Hke]; [done|].
        pose proof (composed_groups_Return true h _ hv _ Hh (or_intror Hce)) as R1.
        set (inv2 := with_groups (join_all h (composed_targets hv (opt_groups cfg))
                                    (groups (with_vars h hv inv))) (with_vars h hv inv)) in *.
        destruct (keyed_groups_Raised h _ hv inv2 Hh Hke) as (msg & gs & R2).
        exists msg, (with_groups gs inv2).
        rewrite E. by rewrite (bind_Return _ _ _ _ _ R1). }
    exists msg, inv'. split; [done|].
    intros rest. simpl. by rewrite (bind_Raised _ _ _ _ _ E').
Qed.

Lemma group_assignment_witness :
  let T := PathTemplar.templar in
  let inv1 := (Plugin.add_node (without_groups grouping_options) edge_node empty_inventory).2 in
  Plugin.add_node (without_groups grouping_options) edge_node empty_inventory
  = (Return tt, inv1) /\
  (exists inv',
     Plugin.add_node grouping_options edge_node empty_inventory = (Return tt, inv') /\
     "n1" ∈ members inv' "labelled" /\
     "n1" ∈ members inv' "role_edge" /\
     "n1" ∉ members inv' "zoned") /\
  (exists msg inv',
     Plugin.add_node (with_strict true grouping_options) edge_node empty_inventory
     = (Raised (AnsibleParserError msg), inv')).
Proof.
  intros T inv1.
  assert (H : Plugin.add_node (without_groups grouping_options) edge_node empty_inventory
              = (Return tt, inv1)) by (vm_compute; reflexivity).
  split; [exact H|]. split.
  - destruct (group_assignment grouping_options edge_node empty_inventory inv1 H)
      as (h & hv & Hn & Hh & _ & Hok & _).
    vm_compute in Hn; injection Hn as <-.
    vm_compute in Hh; injection Hh as <-.
    destruct (Hok (or_introl eq_refl)) as (inv' & E & _ & Hm & _).
    exists inv'. split; [exact E|].
    split; [|split].
    + apply Hm. right. split; [reflexivity|]. left. vm_compute. apply list_elem_of_here.
    + apply Hm. right. split; [reflexivity|]. right. vm_compute. apply list_elem_of_here.
    + intros Hin. apply Hm in Hin as [Hin | [_ [Hin | Hin]]].
      * assert (Em : members inv1 "zoned" = ∅) by (vm_compute; reflexivity).
        rewrite Em in Hin. by apply not_elem_of_empty in Hin.
      * vm_compute in Hin. apply list_elem_of_singleton in Hin. discriminate.
      * vm_compute in Hin. apply list_elem_of_singleton in Hin. discriminate.
  - assert (H' : Plugin.add_node (without_groups (with_strict true grouping_options))
                   edge_node empty_inventory = (Return tt, inv1)) by (vm_compute; reflexivity).
    destruct (group_assignment (with_strict true grouping_options) edge_node
                empty_inventory inv1 H')
      as (h & hv & Hn & Hh & _ & _ & Herr).
    vm_compute in Hn; injection Hn as <-.
    vm_compute in Hh; injection Hh as <-.
    destruct (Herr eq_refl) as (msg & inv' & E & _).
    + left. vm_compute. reflexivity.
    + by exists msg, inv'.
Defined.

(* ===================================================================== *)
(** ** Host names: one host per name, the last node wins                   *)
(* ===================================================================== *)

Lemma names_of_nil : names_of [] = ∅.
Proof. done. Qed.

Lemma names_of_cons node nodes : names_of (node :: nodes) = name_of node ∪ names_of nodes.
Proof. done. Qed.

Lemma elem_of_name_of h node :
  h ∈ name_of node <-> Plugin.node_hostname node = Return (JStr h).
Proof.
  unfold name_of. destruct (Plugin.node_hostname node) as [[| | |s| |]|];
    try (split; [by intros ?%not_elem_of_empty | done]).
  rewrite elem_of_singleton. split; [by intros -> | by intros [= ->]].
Qed.

Lemma elem_of_names_of h nodes :
  h ∈ names_of nodes <-> exists node, node ∈ nodes /\ Plugin.node_hostname node = Return (JStr h).
Proof.
  induction nodes as [|node nodes IH].
  - rewrite names_of_nil. split; [by intros ?%not_elem_of_empty|].
    by intros (? & ?%elem_of_nil & _).
  - rewrite names_of_cons, elem_of_union, IH, elem_of_name_of. split.
    + intros [?|(n & ? & ?)]; [exists node | exists n]; split; try done;
        [apply list_elem_of_here | by apply list_elem_of_further].
    + intros (n & [->|?]%elem_of_cons & ?); [by left | right; by exists n].
Qed.



Section HostNames.
Context {T : Templar}.


Lemma for_each_add_node_frame cfg nodes inv r inv' h :
  for_each nodes (Plugin.add_node cfg) inv = (r, inv') ->
  h ∉ names_of nodes ->
  hosts inv' !! h = hosts inv !! h.
Proof.
  revert inv. induction nodes as [|node nodes IH]; intros inv; simpl.
  - by intros [= _ <-].
  - rewrite names_of_cons, not_elem_of_union, elem_of_name_of. intros H [Hn Hns].
    unfold bind in H. destruct (Plugin.add_node cfg node inv) as [[[]|e] inv1] eqn:E.
    + rewrite (IH _ H Hns). by apply (add_node_frame _ _ _ _ _ _ E).
    + injection H as _ <-. by apply (add_node_frame _ _ _ _ _ _ E).
Qed.

Lemma for_each_app_Return {X} (l1 l2 : list X) (body : X -> M unit) inv inv' :
  for_each (l1 ++ l2) body inv = (Return tt, inv') ->
  exists inv1, for_each l1 body inv = (Return tt, inv1) /\
               for_each l2 body inv1 = (Return tt, inv').
Proof.
  rewrite for_each_app. intros H.
  apply bind_inv_Return in H as ([] & inv1 & H1 & H2). by exists inv1.
Qed.
End HostNames.



(* ===================================================================== *)
(** ** The node source                                                     *)
(* ===================================================================== *)

Lemma fold_extend_selector items cmd :
  fold_left Plugin.extend_selector items cmd
  = (cmd ++ flat_map render (constraint_of <$> items))%list.
Proof.
  revert cmd. induction items as [|[k [v|]] items IH]; intros cmd; simpl.
  - by rewrite app_nil_r.
  - rewrite IH. by rewrite <- app_assoc.
  - rewrite IH. by rewrite <- app_assoc.
Qed.

Lemma get_nodes_cmd_Some items :
  Plugin.get_nodes_cmd (Some items)
  = (kubectl_get_nodes ++ flat_map render (constraint_of <$> items))%list.
Proof.
  destruct items as [|item items]; [done|].
  unfold Plugin.get_nodes_cmd. by rewrite fold_extend_selector.
Qed.

(** C7. Selector translation: each item of the selector map becomes one
    constraint, in order, a key without value the constraint that the
    label is present and a key with a value the constraint that it equals
    that value; each constraint is one [-l] option of the command that is
    run, and the nodes are what that command prints.  The map
    [{"role": "worker", "zone": None}] gives [role=worker] and [zone]. *)
Theorem selector_translation {K : NodeSource} (items : list (string * option string)) :
  Plugin.get_nodes_cmd (Some items)
  = (kubectl_get_nodes ++ flat_map render (constraint_of <$> items))%list /\
  length (constraint_of <$> items) = length items /\
  (forall i k, items !! i = Some (k, None) -> (constraint_of <$> items) !! i = Some (Present k)) /\
  (forall i k v,
     items !! i = Some (k, Some v) -> (constraint_of <$> items) !! i = Some (Equals k v)) /\
  (forall out doc,
     check_output (kubectl_get_nodes ++ flat_map render (constraint_of <$> items))%list
     = Return out ->
     json_loads out = Return doc ->
     Plugin.get_nodes (Some items) = Py.get doc "items" (JList [])) /\
  constraint_of <$> [("role", Some "worker"); ("zone", None)]
  = [Equals "role" "worker"; Present "zone"] /\
  Plugin.get_nodes_cmd (Some [("role", Some "worker"); ("zone", None)])
  = ["kubectl"; "get"; "nodes"; "-o"; "json"; "-l"; "role=worker"; "-l"; "zone"].
Proof.
  split; [apply get_nodes_cmd_Some|]. split; [apply length_fmap|].
  split; [|split; [|split; [|split]]].
  - intros i k Hi. by rewrite list_lookup_fmap, Hi.
  - intros i k v Hi. by rewrite list_lookup_fmap, Hi.
  - intros out doc Hout Hdoc. unfold Plugin.get_nodes.
    rewrite get_nodes_cmd_Some, Hout; simpl. rewrite Hdoc; simpl.
    destruct doc; simpl; try done. by destruct (Py.assoc "items" d).
  - reflexivity.
  - reflexivity.
Qed.

Lemma selector_translation_witness :
  let K := fixed_source (node_list [edge_node]) in
  let items := [("role", Some "worker"); ("zone", None)] in
  items !! 1 = Some ("zone", None) /\
  items !! 0 = Some ("role", Some "worker") /\
  (constraint_of <$> items) !! 1 = Some (Present "zone") /\
  (constraint_of <$> items) !! 0 = Some (Equals "role" "worker") /\
  Plugin.get_nodes (Some items) = Return (JList [edge_node]).
Proof.
  intros K items.
  destruct (selector_translation (K := K) items) as (_ & _ & Hnone & Hsome & Hrun & _).
  split; [reflexivity|]. split; [reflexivity|].
  split; [exact (Hnone 1 "zone" eq_refl)|].
  split; [exact (Hsome 0 "role" "worker" eq_refl)|].
  exact (Hrun "" (node_list [edge_node]) eq_refl eq_refl).
Defined.

(** C9. A failing node source is fatal to the build: when running the
    command raises, [get_nodes] raises one exception and returns no list,
    for a [CalledProcessError] an [AnsibleRuntimeError] whose message
    describes it and otherwise the exception itself, and [add_nodes]
    raises the same with the store untouched. *)
Theorem source_failure_is_fatal {T : Templar} {K : NodeSource} (cfg : options)
    (inv : inventory) (e : exn) :
  check_output (Plugin.get_nodes_cmd (opt_node_selectors cfg)) = Raised e ->
  let e' := match e with
            | CalledProcessError err => AnsibleRuntimeError ("failed to get nodes: " +:+ err)
            | _ => e
            end in
  Plugin.get_nodes (opt_node_selectors cfg) = Raised e' /\
  Plugin.add_nodes cfg inv = (Raised e', inv).
Proof.
  intros He e'.
  assert (E : Plugin.get_nodes (opt_node_selectors cfg) = Raised e').
  { unfold Plugin.get_nodes. rewrite He; simpl. by destruct e. }
  split; [done|]. unfold Plugin.add_nodes. by rewrite E.
Qed.

Lemma source_failure_is_fatal_witness :
  let T := PathTemplar.templar in
  let K := failing_source "Command returned non-zero exit status 1." in
  check_output (Plugin.get_nodes_cmd (opt_node_selectors default_options))
  = Raised (CalledProcessError "Command returned non-zero exit status 1.") /\
  Plugin.add_nodes default_options empty_inventory
  = (Raised (AnsibleRuntimeError
               "failed to get nodes: Command returned non-zero exit status 1."),
     empty_inventory).
Proof.
  intros T K. split; [reflexivity|].
  exact (proj2 (source_failure_is_fatal default_options empty_inventory
                  (CalledProcessError "Command returned non-zero exit status 1.") eq_refl)).
Defined.

(** C10. When the command succeeds and prints a JSON object without an
    ["items"] key, [get_nodes] returns the empty list and the build
    completes without touching the store: from the empty inventory, with
    zero hosts. *)
Theorem no_items_key {T : Templar} {K : NodeSource} (cfg : options) (inv : inventory)
    (out : string) (doc : list (string * json)) :
  check_output (Plugin.get_nodes_cmd (opt_node_selectors cfg)) = Return out ->
  json_loads out = Return (JDict doc) ->
  Py.assoc "items" doc = None ->
  Plugin.get_nodes (opt_node_selectors cfg) = Return (JList []) /\
  Plugin.add_nodes cfg inv = (Return tt, inv) /\
  Plugin.add_nodes cfg empty_inventory = (Return tt, empty_inventory) /\
  size (hosts empty_inventory) = 0%nat.
Proof.
  intros Hout Hdoc Hitems.
  assert (E : Plugin.get_nodes (opt_node_selectors cfg) = Return (JList [])).
  { unfold Plugin.get_nodes. rewrite Hout; simpl. rewrite Hdoc; simpl. by rewrite Hitems. }
  split; [done|]. unfold Plugin.add_nodes. rewrite E. by repeat split.
Qed.

Lemma no_items_key_witness :
  let T := PathTemplar.templar in
  let K := fixed_source (JDict [("apiVersion", JStr "v1"); ("kind", JStr "List")]) in
  check_output (Plugin.get_nodes_cmd (opt_node_selectors default_options)) = Return "" /\
  json_loads "" = Return (JDict [("apiVersion", JStr "v1"); ("kind", JStr "List")]) /\
  Py.assoc "items" [("apiVersion", JStr "v1"); ("kind", JStr "List")] = None /\
  Plugin.add_nodes default_options empty_inventory = (Return tt, empty_inventory).
Proof.
  intros T K. split; [reflexivity|]. split; [reflexivity|]. split; [reflexivity|].
  exact (proj1 (proj2 (proj2 (no_items_key default_options empty_inventory ""
                                [("apiVersion", JStr "v1"); ("kind", JStr "List")]
                                eq_refl eq_refl eq_refl)))).
Defined.

(* ===================================================================== *)
(** ** [verify_file]: which paths the plugin claims                         *)
(* ===================================================================== *)

Lemma substring_whole s : substring 0 (String.length s) s = s.
Proof. induction s as [|c s IH]; simpl; [done | by rewrite IH]. Qed.

Lemma substring_skip pre s n :
  substring (String.length pre) n (pre +:+ s) = substring 0 n s.
Proof. induction pre as [|c pre IH]; simpl; [done | apply IH]. Qed.

Lemma string_length_app s1 s2 :
  String.length (s1 +:+ s2) = (String.length s1 + String.length s2)%nat.
Proof. induction s1 as [|c s1 IH]; simpl; [done | by rewrite IH]. Qed.

Lemma substring_split s k :
  (k ≤ String.length s)%nat ->
  s = substring 0 k s +:+ substring k (String.length s - k) s.
Proof.
  revert k. induction s as [|c s IH]; intros [|k] Hk; simpl in *; try lia.
  - done.
  - by rewrite substring_whole.
  - change (String c s
            = String c (substring 0 k s +:+ substring k (String.length s - k) s)).
    f_equal. apply IH. lia.
Qed.

(** [endswith] is the suffix relation. *)
Lemma endswith_spec s suffix :
  endswith s suffix = true <-> exists stem, s = stem +:+ suffix.
Proof.
  unfold endswith. rewrite andb_true_iff, Nat.leb_le, String.eqb_eq. split.
  - intros [Hle Hsub].
    exists (substring 0 (String.length s - String.length suffix) s).
    pose proof (substring_split s (String.length s - String.length suffix)
                  ltac:(lia)) as Hs.
    replace (String.length s - (String.length s - String.length suffix))%nat
      with (String.length suffix) in Hs by lia.
    by rewrite Hsub in Hs.
  - intros [stem ->]. rewrite string_length_app. split; [lia|].
    replace (String.length stem + String.length suffix - String.length suffix)%nat
      with (String.length stem) by lia.
    by rewrite substring_skip, substring_whole.
Qed.

(** X1. [verify_file] accepts a path exactly when the base class accepts
    it and the path ends in [kubernetes_nodes.yaml] or
    [kubernetes_nodes.yml]; what comes before the suffix is free. *)
Theorem verify_file_spec {B : BasePlugin} (path : string) :
  InventoryModule.verify_file path = true <->
  base_verify_file path = true /\
  exists stem, path = stem +:+ "kubernetes_nodes.yaml" \/ path = stem +:+ "kubernetes_nodes.yml".
Proof.
  unfold InventoryModule.verify_file, endswith_any; simpl.
  rewrite orb_false_r.
  destruct (base_verify_file path); [|split; [done | by intros [? _]]].
  destruct (endswith path "kubernetes_nodes.yaml") eqn:E1.
  { apply endswith_spec in E1 as [stem ->]. split; [|done]. intros _. split; [done|].
    exists stem. by left. }
  destruct (endswith path "kubernetes_nodes.yml") eqn:E2.
  { apply endswith_spec in E2 as [stem ->]. split; [|done]. intros _. split; [done|].
    exists stem. by right. }
  simpl. split; [done|]. intros [_ [stem [->| ->]]].
  - assert (endswith (stem +:+ "kubernetes_nodes.yaml") "kubernetes_nodes.yaml" = true)
      by (apply endswith_spec; by exists stem). congruence.
  - assert (endswith (stem +:+ "kubernetes_nodes.yml") "kubernetes_nodes.yml" = true)
      by (apply endswith_spec; by exists stem). congruence.
Qed.

Lemma verify_file_spec_witness :
  let B := constant_base default_options in
  InventoryModule.verify_file "inventory/prod.kubernetes_nodes.yml" = true /\
  InventoryModule.verify_file "kubernetes_nodes.yaml.bak" = false.
Proof.
  intros B. split.
  - apply verify_file_spec. split; [reflexivity|].
    exists "inventory/prod.". by right.
  - reflexivity.
Defined.

(* ===================================================================== *)
(** ** [get_nodes]: the command and what can go wrong after it ran         *)
(* ===================================================================== *)

Lemma lookup_flat_map_render (cs : list constraint) (i : nat) :
  (i < length cs)%nat -> flat_map render cs !! (2 * i)%nat = Some "-l".
Proof.
  revert i. induction cs as [|c cs IH]; intros i Hi; simpl in Hi; [lia|].
  destruct i as [|i].
  - by destruct c.
  - replace (2 * S i)%nat with (S (S (2 * i))) by lia.
    assert (flat_map render (c :: cs) = "-l" :: match c with
                                                  | Present k => k
                                                  | Equals k v => k +:+ "=" +:+ v
                                                  end :: flat_map render cs) as ->
      by (by destruct c).
    simpl. apply IH. lia.
Qed.

Lemma length_flat_map_render (cs : list constraint) :
  length (flat_map render cs) = (2 * length cs)%nat.
Proof. induction cs as [|[k|k v] cs IH]; simpl; [done | lia | lia]. Qed.

(** X2. Whatever the selectors, the command is the fixed
    [kubectl get nodes -o json] followed by two words per selector, the
    first of which is always [-l]; no selectors, given as [None] or as an
    empty dict, leave the command bare. *)
Theorem get_nodes_cmd_shape (selectors : option (list (string * option string))) :
  exists opts : list string,
    Plugin.get_nodes_cmd selectors = (kubectl_get_nodes ++ opts)%list /\
    length opts = (2 * length (default [] selectors))%nat /\
    (forall i, (i < length (default [] selectors))%nat -> opts !! (2 * i)%nat = Some "-l") /\
    (default [] selectors = [] -> Plugin.get_nodes_cmd selectors = kubectl_get_nodes).
Proof.
  destruct selectors as [items|]; simpl.
  - exists (flat_map render (constraint_of <$> items)).
    split; [apply get_nodes_cmd_Some|].
    split; [by rewrite length_flat_map_render, length_fmap|].
    split; [|by intros ->].
    intros i Hi. apply lookup_flat_map_render. by rewrite length_fmap.
  - exists []. split; [done|]. split; [done|]. split; [intros i Hi; simpl in Hi; lia | done].
Qed.

Lemma get_nodes_cmd_shape_witness :
  exists opts : list string,
    Plugin.get_nodes_cmd (Some [("role", Some "worker"); ("zone", None)])
    = (kubectl_get_nodes ++ opts)%list /\
    opts !! 2%nat = Some "-l".
Proof.
  destruct (get_nodes_cmd_shape (Some [("role", Some "worker"); ("zone", None)]))
    as (opts & E & _ & Hl & _).
  exists opts. split; [exact E|]. apply (Hl 1%nat). simpl. lia.
Defined.

(** X3. Only a [CalledProcessError] is translated.  When the command ran
    and its output does not parse, the parser's exception leaves
    [get_nodes] as it is; when the output parses to something other than
    an object, [.get] raises [AttributeError].  Either way the build
    raises the same and the store is untouched. *)
Theorem unparsable_output_is_fatal {T : Templar} {K : NodeSource} (cfg : options)
    (inv : inventory) (out : string) :
  check_output (Plugin.get_nodes_cmd (opt_node_selectors cfg)) = Return out ->
  (forall e, json_loads out = Raised e -> (forall msg, e ≠ CalledProcessError msg) ->
     Plugin.get_nodes (opt_node_selectors cfg) = Raised e /\
     Plugin.add_nodes cfg inv = (Raised e, inv)) /\
  (forall doc, json_loads out = Return doc -> (forall d, doc ≠ JDict d) ->
     exists msg,
       Plugin.get_nodes (opt_node_selectors cfg) = Raised (AttributeError msg) /\
       Plugin.add_nodes cfg inv = (Raised (AttributeError msg), inv)).
Proof.
  intros Hout. split.
  - intros e He Hne.
    assert (E : Plugin.get_nodes (opt_node_selectors cfg) = Raised e).
    { unfold Plugin.get_nodes. rewrite Hout; simpl. rewrite He; simpl.
      destruct e; try done. by destruct (Hne msg). }
    split; [done|]. unfold Plugin.add_nodes. by rewrite E.
  - intros doc Hdoc Hnd. eexists.
    assert (E : Plugin.get_nodes (opt_node_selectors cfg)
                = Raised (AttributeError "object has no attribute 'get'")).
    { unfold Plugin.get_nodes. rewrite Hout; simpl. rewrite Hdoc; simpl.
      destruct doc; try done. by destruct (Hnd d). }
    split; [exact E|]. unfold Plugin.add_nodes. by rewrite E.
Qed.

Lemma unparsable_output_is_fatal_witness :
  let T := PathTemplar.templar in
  let K := {| check_output := fun _ => Return "<html>";
              json_loads := fun _ => Raised (JSONDecodeError "Expecting value") |} in
  check_output (Plugin.get_nodes_cmd (opt_node_selectors default_options))
  = Return "<html>" /\
  json_loads "<html>" = Raised (JSONDecodeError "Expecting value") /\
  Plugin.add_nodes default_options empty_inventory
  = (Raised (JSONDecodeError "Expecting value"), empty_inventory).
Proof.
  intros T K. split; [reflexivity|]. split; [reflexivity|].
  refine (proj2 (proj1 (unparsable_output_is_fatal default_options empty_inventory
                          "<html>" eq_refl) _ eq_refl _)).
  intros msg. discriminate.
Defined.

(** X4. When ["items"] is not a list the build cannot use it: [None], a
    boolean or a number is not iterable, and a non-empty dict or str
    iterates over strs, which have no ["metadata"]; the build raises
    [TypeError] and the store is untouched.  (An empty dict or str iterates
    over nothing.) *)
Theorem items_not_a_list {T : Templar} {K : NodeSource} (cfg : options)
    (inv : inventory) (items : json) :
  Plugin.get_nodes (opt_node_selectors cfg) = Return items ->
  (forall nodes, items ≠ JList nodes) ->
  items ≠ JDict [] -> items ≠ JStr "" ->
  exists msg, Plugin.add_nodes cfg inv = (Raised (TypeError msg), inv).
Proof.
  intros Hg Hl Hd Hs. unfold Plugin.add_nodes. rewrite Hg.
  assert (Hstr : forall s rest,
    for_each (JStr s :: rest) (Plugin.add_node cfg) inv
    = (Raised (TypeError "string indices must be integers, not 'str'"), inv)).
  { intros s rest. simpl. erewrite bind_Raised; [done|].
    by apply add_node_no_hostname. }
  destruct items as [|b|z|s|l|d]; try (by eexists); simpl.
  - destruct s as [|c s]; [done|]. eexists. apply Hstr.
  - by destruct (Hl l).
  - destruct d as [|[k v] d]; [done|]. eexists. apply Hstr.
Qed.

Lemma items_not_a_list_witness :
  let T := PathTemplar.templar in
  let K := fixed_source (JDict [("items", JNull)]) in
  Plugin.get_nodes (opt_node_selectors default_options) = Return JNull /\
  exists msg,
    Plugin.add_nodes default_options empty_inventory = (Raised (TypeError msg), empty_inventory).
Proof.
  intros T K.
  assert (Hg : Plugin.get_nodes (opt_node_selectors default_options) = Return JNull)
    by reflexivity.
  split; [exact Hg|].
  apply (items_not_a_list default_options empty_inventory JNull Hg); discriminate.
Defined.

(* ===================================================================== *)
(** ** The address search, entry by entry                                  *)
(* ===================================================================== *)

Lemma next_address_passes preferred passed rest :
  Forall (other_kind preferred) passed ->
  Plugin.next_address (passed ++ rest) preferred = Plugin.next_address rest preferred.
Proof.
  induction 1 as [|entry passed (ty & Hty & Hne) _ IH]; simpl; [done|].
  rewrite Hty; simpl. by rewrite Hne.
Qed.

(** X5. The address search is lazy: once an entry of the preferred kind is
    found, the entries after it are never looked at, whatever they are,
    and the result is that entry's ["address"] (a [KeyError] when it has
    none). *)
Theorem address_search_stops_at_first_match (node : json) (passed after : list json)
    (found : json) (preferred : string) :
  Py.getitem2 node "status" "addresses" = Return (JList (passed ++ found :: after)) ->
  Forall (other_kind preferred) passed ->
  of_kind preferred found ->
  Plugin.node_address node preferred = Py.getitem found "address" /\
  (forall inner, found = JDict inner -> Py.assoc "address" inner = None ->
     Plugin.node_address node preferred = Raised (KeyError "address")).
Proof.
  intros Hl Hp (ty & Hty & Heq).
  assert (E : Plugin.node_address node preferred = Py.getitem found "address").
  { unfold Plugin.node_address. rewrite Hl; simpl.
    rewrite (next_address_passes _ _ _ Hp); simpl. rewrite Hty; simpl. by rewrite Heq. }
  split; [done|]. intros inner -> Hnone. rewrite E; simpl. by rewrite Hnone.
Qed.

Lemma address_search_stops_at_first_match_witness :
  let node := mk_node "n1" [address_entry "Hostname" "n1";
                            address_entry "InternalIP" "10.0.0.1";
                            JNull; address_entry "InternalIP" "10.0.0.2"] [] in
  Forall (other_kind "InternalIP") [address_entry "Hostname" "n1"] /\
  of_kind "InternalIP" (address_entry "InternalIP" "10.0.0.1") /\
  Plugin.node_address node "InternalIP" = Return (JStr "10.0.0.1").
Proof.
  intros node.
  assert (Hp : Forall (other_kind "InternalIP") [address_entry "Hostname" "n1"])
    by (repeat constructor; eexists; split; reflexivity).
  assert (Hf : of_kind "InternalIP" (address_entry "InternalIP" "10.0.0.1"))
    by (eexists; split; reflexivity).
  split; [exact Hp|]. split; [exact Hf|].
  exact (proj1 (address_search_stops_at_first_match node
                  [address_entry "Hostname" "n1"]
                  [JNull; address_entry "InternalIP" "10.0.0.2"]
                  (address_entry "InternalIP" "10.0.0.1") "InternalIP" eq_refl Hp Hf)).
Defined.

(** X6. An entry without a usable ["type"] that comes before any entry of
    the preferred kind is fatal to the node: the search raises on it
    ([KeyError] for a dict without the key), even when a later entry would
    match, and [add_node] raises the same before any host is created. *)
Theorem malformed_address_entry_is_fatal {T : Templar} (cfg : options) (node : json)
    (passed after : list json) (bad : json) (e : exn) (inv : inventory) (hn : json) :
  Py.getitem2 node "status" "addresses" = Return (JList (passed ++ bad :: after)) ->
  Forall (other_kind (opt_address_from cfg)) passed ->
  Py.getitem bad "type" = Raised e ->
  Plugin.node_hostname node = Return hn ->
  Plugin.node_address node (opt_address_from cfg) = Raised e /\
  Plugin.add_node cfg node inv = (Raised e, inv) /\
  (forall inner, bad = JDict inner -> e = KeyError "type").
Proof.
  intros Hl Hp Hbad Hn.
  assert (E : Plugin.node_address node (opt_address_from cfg) = Raised e).
  { unfold Plugin.node_address. rewrite Hl; simpl.
    rewrite (next_address_passes _ _ _ Hp); simpl. by rewrite Hbad. }
  split; [done|]. split; [by apply (add_node_no_address _ _ _ hn)|].
  intros inner ->. simpl in Hbad. destruct (Py.assoc "type" inner); congruence.
Qed.

Lemma malformed_address_entry_is_fatal_witness :
  let T := PathTemplar.templar in
  let bad := JDict [("address", JStr "10.0.0.7")] in
  let node := mk_node "n1" [bad; address_entry "InternalIP" "10.0.0.1"] [] in
  Py.getitem bad "type" = Raised (KeyError "type") /\
  Plugin.add_node default_options node empty_inventory
  = (Raised (KeyError "type"), empty_inventory).
Proof.
  intros T bad node. split; [reflexivity|].
  exact (proj1 (proj2 (malformed_address_entry_is_fatal default_options node []
                         [address_entry "InternalIP" "10.0.0.1"] bad (KeyError "type")
                         empty_inventory (JStr "n1") eq_refl (Forall_nil_2 _)
                         eq_refl eq_refl))).
Defined.

(* ===================================================================== *)
(** ** The build only adds                                                 *)
(* ===================================================================== *)

Lemma grows_refl inv : grows inv inv.
Proof. by split. Qed.

Lemma grows_trans a b c : grows a b -> grows b c -> grows a c.
Proof. intros [H1 H2] [H3 H4]. split; [set_solver | intros g; set_solver]. Qed.

Lemma keeps_add_host_grows name : keeps grows (Inv.add_host name).
Proof.
  intros inv r inv'. unfold Inv.add_host.
  destruct (Py.truthy name); [|intros [= <- <-]; apply grows_refl].
  destruct name; try (intros [= <- <-]; apply grows_refl).
  destruct (hosts inv !! s); intros [= <- <-]; [apply grows_refl|].
  split; [apply dom_insert_subseteq | done].
Qed.

Lemma keeps_set_variable_grows h k v : keeps grows (Inv.set_variable h k v).
Proof.
  intros inv r inv'. unfold Inv.set_variable.
  destruct (hosts inv !! h); intros [= <- <-]; [|apply grows_refl].
  split; [apply dom_insert_subseteq | done].
Qed.

Lemma keeps_host_vars_grows h : keeps grows (Inv.host_vars h).
Proof.
  intros inv r inv'. unfold Inv.host_vars.
  destruct (hosts inv !! h); intros [= <- <-]; apply grows_refl.
Qed.

Lemma keeps_add_group_grows g : keeps grows (Inv.add_group g).
Proof.
  intros inv r inv'. unfold Inv.add_group.
  destruct (groups inv !! g) eqn:E; intros [= <- <-]; [apply grows_refl|].
  split; [done|]. intros g'. unfold members; simpl.
  destruct (decide (g = g')) as [<-|Hne].
  - by rewrite E, lookup_insert_eq.
  - by rewrite lookup_insert_ne.
Qed.

Lemma keeps_add_child_grows g h : keeps grows (Inv.add_child g h).
Proof.
  intros inv r inv'. unfold Inv.add_child.
  destruct (groups inv !! g) eqn:E, (hosts inv !! h);
    intros [= <- <-]; try apply grows_refl.
  split; [done|]. intros g'. unfold members; simpl.
  destruct (decide (g = g')) as [<-|Hne].
  - rewrite E, lookup_insert_eq; simpl. set_solver.
  - by rewrite lookup_insert_ne.
Qed.

Section Grows.
Context {T : Templar}.

Ltac grow :=
  repeat first
    [ apply (keeps_ret grows); apply grows_refl
    | apply (keeps_raise grows); apply grows_refl
    | apply (keeps_lift grows); apply grows_refl
    | apply keeps_add_host_grows
    | apply keeps_set_variable_grows
    | apply keeps_host_vars_grows
    | apply keeps_add_group_grows
    | apply keeps_add_child_grows
    | apply (keeps_for_each grows); [apply grows_refl | apply grows_trans | intros ?]
    | apply (keeps_bind grows); [apply grows_trans | | intros ?]
    | match goal with |- keeps _ (let '(_, _) := ?p in _) => destruct p end
    | match goal with |- keeps _ (match ?o with _ => _ end) => destruct o end ].

Lemma keeps_add_node_grows cfg node : keeps grows (Plugin.add_node cfg node).
Proof.
  unfold Plugin.add_node, Constructable._set_composite_vars,
    Constructable._add_host_to_composed_groups, Constructable._add_host_to_keyed_groups.
  grow.
Qed.

Lemma keeps_add_nodes_grows {K : NodeSource} cfg : keeps grows (Plugin.add_nodes cfg).
Proof.
  unfold Plugin.add_nodes.
  apply (keeps_bind grows); [apply grows_trans | apply keeps_lift, grows_refl | intros nodes].
  apply (keeps_for_each grows); [apply grows_refl | apply grows_trans | intros node].
  apply keeps_add_node_grows.
Qed.
End Grows.

(** X7. Whatever its outcome, a build only adds: every host that was in
    the inventory is still there, every group keeps the members it had,
    and a host that none of the listed nodes names keeps its variables. *)
Theorem build_only_adds {T : Templar} {K : NodeSource} (cfg : options)
    (inv inv' : inventory) (r : outcome unit) :
  Plugin.add_nodes cfg inv = (r, inv') ->
  dom (hosts inv) ⊆ dom (hosts inv') /\
  (forall g, members inv g ⊆ members inv' g) /\
  (forall nodes h,
     Plugin.get_nodes (opt_node_selectors cfg) = Return (JList nodes) ->
     h ∉ names_of nodes ->
     hosts inv' !! h = hosts inv !! h).
Proof.
  intros H. destruct (keeps_add_nodes_grows cfg _ _ _ H) as [Hd Hm].
  split; [done|]. split; [done|].
  intros nodes h Hg Hh. rewrite (add_nodes_for_each _ _ _ Hg) in H.
  by apply (for_each_add_node_frame _ _ _ _ _ _ H).
Qed.

Lemma build_only_adds_witness :
  let T := PathTemplar.templar in
  let K := fixed_source (node_list [second_node; unlabelled_node]) in
  let inv := (Plugin.add_node grouping_options edge_node empty_inventory).2 in
  let run := Plugin.add_nodes default_options inv in
  run.1 = Raised (KeyError "labels") /\
  "n1" ∈ dom (hosts run.2) /\
  "n1" ∈ members run.2 "role_edge" /\
  hosts run.2 !! "n1" = hosts inv !! "n1".
Proof.
  intros T K inv run.
  destruct (build_only_adds default_options inv run.2 run.1) as (Hd & Hm & Hf).
  { apply surjective_pairing. }
  split; [vm_compute; reflexivity|].
  split; [apply Hd, elem_of_dom; eexists; vm_compute; reflexivity|].
  split.
  { apply Hm. assert (members inv "role_edge" = {["n1"]}) as -> by (vm_compute; reflexivity).
    by apply elem_of_singleton. }
  apply (Hf [second_node; unlabelled_node]); [reflexivity|].
  intros (n & Hin & Hn)%elem_of_names_of.
  apply elem_of_cons in Hin as [->|Hin]; [vm_compute in Hn; discriminate|].
  apply elem_of_cons in Hin as [->|Hin]; [vm_compute in Hn; discriminate|].
  by apply elem_of_nil in Hin.
Defined.

(** X9. The build stops at the first node that fails, whatever the
    failure: it raises that node's exception, and a host that only later
    nodes name is left as it was, so it is not created. *)
Theorem build_stops_at_first_failure {T : Templar} {K : NodeSource} (cfg : options)
    (before after : list json) (node : json) (inv inv1 inv2 : inventory) (e : exn) :
  Plugin.get_nodes (opt_node_selectors cfg) = Return (JList (before ++ node :: after)) ->
  for_each before (Plugin.add_node cfg) inv = (Return tt, inv1) ->
  Plugin.add_node cfg node inv1 = (Raised e, inv2) ->
  Plugin.add_nodes cfg inv = (Raised e, inv2) /\
  (forall h, h ∉ names_of before -> h ∉ name_of node ->
     hosts inv2 !! h = hosts inv !! h).
Proof.
  intros Hg Hb Hn. split.
  - rewrite (add_nodes_for_each _ _ _ Hg). by apply (for_each_raises _ _ _ _ _ inv1).
  - intros h Hh1 Hh2. rewrite elem_of_name_of in Hh2.
    rewrite (add_node_frame _ _ _ _ _ _ Hn Hh2).
    by apply (for_each_add_node_frame _ _ _ _ _ _ Hb).
Qed.

Lemma build_stops_at_first_failure_witness :
  let T := PathTemplar.templar in
  let K := fixed_source (node_list [edge_node; unlabelled_node; second_node]) in
  let inv1 := (Plugin.add_node default_options edge_node empty_inventory).2 in
  let inv2 := (Plugin.add_node default_options unlabelled_node inv1).2 in
  for_each [edge_node] (Plugin.add_node default_options) empty_inventory = (Return tt, inv1) /\
  Plugin.add_node default_options unlabelled_node inv1 = (Raised (KeyError "labels"), inv2) /\
  Plugin.add_nodes default_options empty_inventory = (Raised (KeyError "labels"), inv2) /\
  hosts inv2 !! "n2" = None.
Proof.
  intros T K inv1 inv2.
  assert (Hb : for_each [edge_node] (Plugin.add_node default_options) empty_inventory
               = (Return tt, inv1)) by (vm_compute; reflexivity).
  assert (Hn : Plugin.add_node default_options unlabelled_node inv1
               = (Raised (KeyError "labels"), inv2)) by (vm_compute; reflexivity).
  assert (Hg : Plugin.get_nodes (opt_node_selectors default_options)
               = Return (JList ([edge_node] ++ unlabelled_node :: [second_node])))
    by reflexivity.
  destruct (build_stops_at_first_failure default_options [edge_node] [second_node]
              unlabelled_node empty_inventory inv1 inv2 (KeyError "labels") Hg Hb Hn)
    as [E Hf].
  split; [exact Hb|]. split; [exact Hn|]. split; [exact E|].
  rewrite (Hf "n2"); [reflexivity | |].
  - intros (n & Hin & Hname)%elem_of_names_of.
    apply elem_of_cons in Hin as [->|Hin]; [vm_compute in Hname; discriminate|].
    by apply elem_of_nil in Hin.
  - intros Hin%elem_of_name_of. vm_compute in Hin. discriminate.
Defined.

(* ===================================================================== *)
(** ** When a node is accepted, and what the store is then                 *)
(* ===================================================================== *)

Section Built.
Context {T : Templar}.

Lemma assign_steps old fixed static composed :
  assign (assign old (fixed ++ static)) composed = assign old (fixed ++ static ++ composed).
Proof. by rewrite app_assoc, (assign_app _ (_ ++ _)). Qed.

(** From the node's fields to the store. *)
Lemma add_node_built cfg node inv h addr labels annotations info composed :
  Plugin.node_hostname node = Return (JStr h) -> h ≠ "" ->
  Plugin.node_address node (opt_address_from cfg) = Return addr ->
  Py.getitem2 node "metadata" "labels" = Return labels ->
  Py.getitem2 node "metadata" "annotations" = Return annotations ->
  Py.getitem2 node "status" "nodeInfo" = Return info ->
  composed_from
    (assign (old_vars inv h) (fixed_vars addr labels annotations info ++ opt_vars cfg))
    (opt_compose cfg) composed ->
  let hv := assign (old_vars inv h)
              (fixed_vars addr labels annotations info ++ opt_vars cfg ++ composed) in
  opt_strict cfg = false \/
  (composed_error hv (opt_groups cfg) = false /\
   keyed_error hv (opt_keyed_groups cfg) = false) ->
  Plugin.add_node cfg node inv = (Return tt, built cfg h hv inv).
Proof.
  intros Hn Hne Ha Hl Han Hi Hc hv Hok.
  rewrite (add_node_merge _ _ _ _ _ _ _ _ Hn Hne Ha Hl Han Hi). unfold construct.
  rewrite (bind_Return _ _ _ _ _ (set_composite_vars_strict_Return h _ _ _ inv Hc)).
  rewrite assign_steps. fold hv.
  assert (Hh : hosts (with_vars h hv inv) !! h = Some (Host hv)) by apply hosts_with_vars.
  assert (Hcg : opt_strict cfg = false \/ composed_error hv (opt_groups cfg) = false)
    by (destruct Hok as [?|[? _]]; auto).
  assert (Hkg : opt_strict cfg = false \/ keyed_error hv (opt_keyed_groups cfg) = false)
    by (destruct Hok as [?|[_ ?]]; auto).
  rewrite (bind_Return _ _ _ _ _ (composed_groups_Return _ h _ hv _ Hh Hcg)).
  by rewrite (keyed_groups_Return (opt_strict cfg) h (opt_keyed_groups cfg) hv
                (with_groups (join_all h (composed_targets hv (opt_groups cfg))
                                (groups (with_vars h hv inv))) (with_vars h hv inv))
                Hh Hkg).
Qed.

(** From the store back to the node's fields. *)
Lemma add_node_built_inv cfg node inv inv' :
  Plugin.add_node cfg node inv = (Return tt, inv') ->
  exists h addr labels annotations info composed,
    Plugin.node_hostname node = Return (JStr h) /\ h ≠ "" /\
    Plugin.node_address node (opt_address_from cfg) = Return addr /\
    Py.getitem2 node "metadata" "labels" = Return labels /\
    Py.getitem2 node "metadata" "annotations" = Return annotations /\
    Py.getitem2 node "status" "nodeInfo" = Return info /\
    composed_from
      (assign (old_vars inv h) (fixed_vars addr labels annotations info ++ opt_vars cfg))
      (opt_compose cfg) composed /\
    (opt_strict cfg = false \/
     (composed_error
        (assign (old_vars inv h)
           (fixed_vars addr labels annotations info ++ opt_vars cfg ++ composed))
        (opt_groups cfg) = false /\
      keyed_error
        (assign (old_vars inv h)
           (fixed_vars addr labels annotations info ++ opt_vars cfg ++ composed))
        (opt_keyed_groups cfg) = false)) /\
    inv' = built cfg h
             (assign (old_vars inv h)
                (fixed_vars addr labels annotations info ++ opt_vars cfg ++ composed)) inv.
Proof.
  intros H.
  destruct (add_node_accepted _ _ _ _ H)
    as (h & addr & labels & ann & info & composed
        & Hn & Hne & Ha & Hl & Han & Hi & Hc & _).
  exists h, addr, labels, ann, info, composed. repeat (split; [done|]).
  set (hv := assign (old_vars inv h)
               (fixed_vars addr labels ann info ++ opt_vars cfg ++ composed)).
  assert (Hok : opt_strict cfg = false \/
                (composed_error hv (opt_groups cfg) = false /\
                 keyed_error hv (opt_keyed_groups cfg) = false)).
  { destruct (opt_strict cfg) eqn:Hs; [right | by left].
    pose proof H as H'.
    rewrite (add_node_merge _ _ _ _ _ _ _ _ Hn Hne Ha Hl Han Hi) in H'. unfold construct in H'.
    rewrite (bind_Return _ _ _ _ _ (set_composite_vars_strict_Return h _ _ _ inv Hc)) in H'.
    rewrite assign_steps in H'. fold hv in H'. rewrite Hs in H'.
    assert (Hh : hosts (with_vars h hv inv) !! h = Some (Host hv)) by apply hosts_with_vars.
    destruct (composed_error hv (opt_groups cfg)) eqn:Hce.
    { destruct (composed_groups_Raised h _ hv _ Hh Hce) as (msg & gs & R1).
      by rewrite (bind_Raised _ _ _ _ _ R1) in H'. }
    rewrite (bind_Return _ _ _ _ _
               (composed_groups_Return true h _ hv _ Hh (or_intror Hce))) in H'.
    destruct (keyed_error hv (opt_keyed_groups cfg)) eqn:Hke; [|done].
    destruct (keyed_groups_Raised h (opt_keyed_groups cfg) hv
                (with_groups (join_all h (composed_targets hv (opt_groups cfg))
                                (groups (with_vars h hv inv))) (with_vars h hv inv))
                Hh Hke) as (msg & gs & R2).
    by rewrite R2 in H'. }
  split; [done|].
  pose proof (add_node_built _ _ inv _ _ _ _ _ _ Hn Hne Ha Hl Han Hi Hc Hok) as E.
  rewrite E in H. by injection H as <-.
Qed.
End Built.



(* ===================================================================== *)
(** ** The order of the nodes                                              *)
(* ===================================================================== *)

Lemma join_comm h1 g1 h2 g2 gs :
  join h1 g1 (join h2 g2 gs) = join h2 g2 (join h1 g1 gs).
Proof.
  unfold join. destruct (decide (g1 = g2)) as [<-|Hne].
  - rewrite !lookup_insert_eq, !insert_insert_eq; simpl. f_equal. set_solver.
  - rewrite (lookup_insert_ne _ g2 g1) by done. rewrite (lookup_insert_ne _ g1 g2) by done.
    by apply insert_insert_ne.
Qed.

Lemma join_join_all h1 g h2 targets gs :
  join h1 g (join_all h2 targets gs) = join_all h2 targets (join h1 g gs).
Proof.
  revert gs. induction targets as [|g' targets IH]; intros gs; simpl; [done|].
  by rewrite IH, join_comm.
Qed.

Lemma join_all_comm h1 l1 h2 l2 gs :
  join_all h1 l1 (join_all h2 l2 gs) = join_all h2 l2 (join_all h1 l1 gs).
Proof.
  revert gs. induction l1 as [|g l1 IH]; intros gs; simpl; [done|].
  by rewrite <- IH, join_join_all.
Qed.

Lemma join_idem h g gs : join h g (join h g gs) = join h g gs.
Proof.
  unfold join. rewrite lookup_insert_eq, insert_insert_eq; simpl. f_equal. set_solver.
Qed.

Lemma join_all_idem h l gs : join_all h l (join_all h l gs) = join_all h l gs.
Proof.
  revert gs. induction l as [|g l IH]; intros gs; simpl; [done|].
  by rewrite <- join_join_all, IH, join_join_all, join_idem.
Qed.

Section Order.
Context {T : Templar}.

Lemma composed_from_det base entries vs1 vs2 :
  composed_from base entries vs1 -> composed_from base entries vs2 -> vs1 = vs2.
Proof.
  intros H1. revert vs2. induction H1 as [base | base k e v rest vs Hv H1 IH]; intros vs2 H2.
  - by inversion H2.
  - inversion H2 as [|? ? v' ? vs' Hv' H2']; subst.
    assert (v' = v) as -> by congruence. f_equal. by apply IH.
Qed.

Lemma old_vars_built_ne cfg h hv inv h' :
  h ≠ h' -> old_vars (built cfg h hv inv) h' = old_vars inv h'.
Proof. intros Hne. unfold old_vars, built; simpl. by rewrite lookup_insert_ne. Qed.

Lemma old_vars_built cfg h hv inv : old_vars (built cfg h hv inv) h = hv.
Proof. unfold old_vars, built; simpl. by rewrite lookup_insert_eq. Qed.

Lemma built_comm cfg h1 hv1 h2 hv2 inv :
  h1 ≠ h2 ->
  built cfg h1 hv1 (built cfg h2 hv2 inv) = built cfg h2 hv2 (built cfg h1 hv1 inv).
Proof.
  intros Hne. unfold built, with_groups, with_vars; simpl. f_equal.
  - by apply insert_insert_ne.
  - rewrite (join_all_comm h1 (composed_targets hv1 _) h2 (keyed_targets hv2 _)).
    rewrite (join_all_comm h1 (composed_targets hv1 _) h2 (composed_targets hv2 _)).
    rewrite (join_all_comm h1 (keyed_targets hv1 _) h2 (keyed_targets hv2 _)).
    by rewrite (join_all_comm h1 (keyed_targets hv1 _) h2 (composed_targets hv2 _)).
Qed.

(** Two nodes with different names can be taken in either order. *)
Lemma add_node_swap cfg a b inv inva invab :
  Plugin.node_hostname a ≠ Plugin.node_hostname b ->
  Plugin.add_node cfg a inv = (Return tt, inva) ->
  Plugin.add_node cfg b inva = (Return tt, invab) ->
  exists invb,
    Plugin.add_node cfg b inv = (Return tt, invb) /\
    Plugin.add_node cfg a invb = (Return tt, invab).
Proof.
  intros Hne Ha Hb.
  apply add_node_built_inv in Ha
    as (ha & addra & la & ana & ia & ca & Hna & Hnea & Haa & Hla & Hana & Hia & Hca & Hoka & ->).
  apply add_node_built_inv in Hb
    as (hb & addrb & lb & anb & ib & cb & Hnb & Hneb & Hab & Hlb & Hanb & Hib & Hcb & Hokb & ->).
  assert (Hab' : ha ≠ hb) by congruence.
  rewrite old_vars_built_ne in Hcb, Hokb |- * by done.
  exists (built cfg hb (assign (old_vars inv hb)
                          (fixed_vars addrb lb anb ib ++ opt_vars cfg ++ cb)) inv).
  split.
  - by apply (add_node_built cfg b inv hb addrb lb anb ib cb).
  - rewrite built_comm by done.
    pose proof (add_node_built cfg a
                  (built cfg hb (assign (old_vars inv hb)
                                   (fixed_vars addrb lb anb ib ++ opt_vars cfg ++ cb)) inv)
                  ha addra la ana ia ca) as E.
    rewrite old_vars_built_ne in E by done. by apply E.
Qed.

Lemma for_each_add_node_Permutation cfg nodes nodes' :
  nodes ≡ₚ nodes' ->
  forall inv inv',
    NoDup (Plugin.node_hostname <$> nodes) ->
    for_each nodes (Plugin.add_node cfg) inv = (Return tt, inv') ->
    for_each nodes' (Plugin.add_node cfg) inv = (Return tt, inv').
Proof.
  induction 1 as [|x l l' Hp IH|x y l|l l' l'' Hp1 IH1 Hp2 IH2]; intros inv inv' Hnd H.
  - done.
  - simpl in *. apply NoDup_cons in Hnd as [_ Hnd].
    apply bind_inv_Return in H as ([] & inv1 & Hx & Hl).
    rewrite (bind_Return _ _ _ _ _ Hx). by apply IH.
  - simpl in *. apply NoDup_cons in Hnd as [Hyx _].
    apply not_elem_of_cons in Hyx as [Hyx _].
    apply bind_inv_Return in H as ([] & inv1 & Hy & H).
    apply bind_inv_Return in H as ([] & inv2 & Hx & Hl).
    destruct (add_node_swap _ _ _ _ _ _ Hyx Hy Hx) as (invx & Hx' & Hy').
    rewrite (bind_Return _ _ _ _ _ Hx'). by rewrite (bind_Return _ _ _ _ _ Hy').
  - apply IH2; [|by apply IH1]. by rewrite <- Hp1.
Qed.
End Order.

(** X10. The order in which the node source lists the nodes does not
    matter when their names are pairwise different: if the build succeeds
    on one listing it succeeds on every permutation of it, with the same
    hosts, variables and group memberships. *)
Theorem node_order_is_irrelevant {T : Templar} (K1 K2 : NodeSource) (cfg : options)
    (nodes nodes' : list json) (inv inv' : inventory) :
  Plugin.get_nodes (K := K1) (opt_node_selectors cfg) = Return (JList nodes) ->
  Plugin.get_nodes (K := K2) (opt_node_selectors cfg) = Return (JList nodes') ->
  nodes ≡ₚ nodes' ->
  NoDup (Plugin.node_hostname <$> nodes) ->
  Plugin.add_nodes (K := K1) cfg inv = (Return tt, inv') ->
  Plugin.add_nodes (K := K2) cfg inv = (Return tt, inv').
Proof.
  intros Hg1 Hg2 Hp Hnd H.
  rewrite (add_nodes_for_each (K := K1) _ _ _ Hg1) in H.
  rewrite (add_nodes_for_each (K := K2) _ _ _ Hg2).
  by apply (for_each_add_node_Permutation cfg nodes nodes').
Qed.

Lemma node_order_is_irrelevant_witness :
  let T := PathTemplar.templar in
  let K1 := fixed_source (node_list [edge_node; second_node]) in
  let K2 := fixed_source (node_list [second_node; edge_node]) in
  let inv' := (Plugin.add_nodes (K := K1) default_options empty_inventory).2 in
  [edge_node; second_node] ≡ₚ [second_node; edge_node] /\
  NoDup (Plugin.node_hostname <$> [edge_node; second_node]) /\
  Plugin.add_nodes (K := K1) default_options empty_inventory = (Return tt, inv') /\
  Plugin.add_nodes (K := K2) default_options empty_inventory = (Return tt, inv').
Proof.
  intros T K1 K2 inv'.
  assert (Hp : [edge_node; second_node] ≡ₚ [second_node; edge_node]) by apply perm_swap.
  assert (Hnd : NoDup (Plugin.node_hostname <$> [edge_node; second_node])).
  { apply NoDup_cons. split; [|apply NoDup_singleton].
    intros Hin%list_elem_of_singleton. discriminate. }
  assert (H : Plugin.add_nodes (K := K1) default_options empty_inventory = (Return tt, inv'))
    by (vm_compute; reflexivity).
  split; [exact Hp|]. split; [exact Hnd|]. split; [exact H|].
  assert (Hg1 : Plugin.get_nodes (K := K1) (opt_node_selectors default_options)
                = Return (JList [edge_node; second_node])) by reflexivity.
  assert (Hg2 : Plugin.get_nodes (K := K2) (opt_node_selectors default_options)
                = Return (JList [second_node; edge_node])) by reflexivity.
  exact (node_order_is_irrelevant K1 K2 default_options _ _ empty_inventory inv'
           Hg1 Hg2 Hp Hnd H).
Defined.

(* ===================================================================== *)
(** ** Building again                                                      *)
(* ===================================================================== *)

Lemma assign_idem m l : assign (assign m l) l = assign m l.
Proof.
  apply map_eq. intros k. rewrite !lookup_assign.
  by destruct (last_binding k l).
Qed.

Section Again.
Context {T : Templar}.

Lemma built_idem cfg h hv inv : built cfg h hv (built cfg h hv inv) = built cfg h hv inv.
Proof.
  unfold built, with_groups, with_vars; simpl. f_equal.
  - apply insert_insert_eq.
  - rewrite (join_all_comm h (composed_targets hv _) h (keyed_targets hv _)).
    by rewrite !join_all_idem.
Qed.

(** The composed values do not change when the mapping changes only at
    composed keys. *)
Lemma composed_from_agree cfg entries base base' vs :
  compose_independent cfg ->
  entries ⊆ opt_compose cfg ->
  (forall k, k ∉ (opt_compose cfg).*1 -> base !! k = base' !! k) ->
  composed_from base entries vs ->
  composed_from base' entries vs.
Proof.
  intros Hind Hsub Hag Hc. revert base' Hag.
  induction Hc as [base | base k e v rest vs Hv Hc IH]; intros base' Hag; [constructor|].
  assert (Hin : (k, e) ∈ opt_compose cfg) by (apply Hsub, list_elem_of_here).
  constructor.
  - by rewrite <- (Hind k e base base' Hin Hag).
  - apply IH; [intros x Hx; by apply Hsub, list_elem_of_further|].
    intros k' Hk'. destruct (decide (k = k')) as [<-|Hne].
    + by rewrite !lookup_insert_eq.
    + rewrite !lookup_insert_ne by done. by apply Hag.
Qed.

(** Adding a node a second time changes nothing. *)
Lemma add_node_idem cfg node inv inv' :
  compose_independent cfg ->
  Plugin.add_node cfg node inv = (Return tt, inv') ->
  Plugin.add_node cfg node inv' = (Return tt, inv').
Proof.
  intros Hind H.
  apply add_node_built_inv in H
    as (h & addr & labels & ann & info & composed
        & Hn & Hne & Ha & Hl & Han & Hi & Hc & Hok & ->).
  set (fs := (fixed_vars addr labels ann info ++ opt_vars cfg)%list) in *.
  set (hv := assign (old_vars inv h)
               (fixed_vars addr labels ann info ++ opt_vars cfg ++ composed)) in *.
  assert (Ehv : hv = assign (old_vars inv h) (fs ++ composed))
    by (unfold hv, fs; by rewrite app_assoc).
  pose proof (add_node_built cfg node (built cfg h hv inv) h addr labels ann info composed
                Hn Hne Ha Hl Han Hi) as E.
  cbv zeta in E. rewrite old_vars_built in E. fold fs in E.
  assert (Hhv : assign hv (fixed_vars addr labels ann info ++ opt_vars cfg ++ composed) = hv).
  { rewrite app_assoc. fold fs. rewrite Ehv. apply assign_idem. }
  rewrite Hhv in E. rewrite built_idem in E. apply E; [|done].
  apply (composed_from_agree cfg _ (assign (old_vars inv h) fs)); try done.
  intros k Hk. rewrite !lookup_assign.
  destruct (last_binding k fs) eqn:Hfs; [done|].
  rewrite Ehv, lookup_assign, last_binding_app, Hfs.
  assert (last_binding k composed = None) as ->; [|done].
  apply last_binding_None. by rewrite (composed_from_keys _ _ _ Hc).
Qed.

Lemma for_each_fixpoint cfg nodes inv :
  (forall node, node ∈ nodes -> Plugin.add_node cfg node inv = (Return tt, inv)) ->
  for_each nodes (Plugin.add_node cfg) inv = (Return tt, inv).
Proof.
  induction nodes as [|node nodes IH]; intros Hfix; simpl; [done|].
  rewrite (bind_Return _ _ _ _ _ (Hfix node (list_elem_of_here _ _))).
  apply IH. intros n Hn. by apply Hfix, list_elem_of_further.
Qed.

Lemma for_each_add_node_idem cfg nodes inv inv' :
  compose_independent cfg ->
  NoDup (Plugin.node_hostname <$> nodes) ->
  for_each nodes (Plugin.add_node cfg) inv = (Return tt, inv') ->
  for_each nodes (Plugin.add_node cfg) inv' = (Return tt, inv').
Proof.
  intros Hind Hnd H. apply for_each_fixpoint. intros node Hin.
  apply list_elem_of_split in Hin as (l1 & l2 & ->).
  assert (Hp : (l1 ++ node :: l2)%list ≡ₚ ((l1 ++ l2) ++ [node])%list)
    by (by rewrite <- Permutation_middle, Permutation_cons_append).
  apply (for_each_add_node_Permutation cfg _ _ Hp) in H; [|done].
  apply for_each_app_Return in H as (inv1 & _ & H).
  simpl in H. apply bind_inv_Return in H as ([] & inv2 & H & [= <-]).
  by apply (add_node_idem _ _ inv1).
Qed.
End Again.

(** X11. Adding the same node again changes nothing, provided the
    composed expressions read no composed variable: the second [add_node]
    is accepted and leaves the store exactly as the first left it. *)
Theorem add_node_again {T : Templar} (cfg : options) (node : json)
    (inv inv' : inventory) :
  compose_independent cfg ->
  Plugin.add_node cfg node inv = (Return tt, inv') ->
  Plugin.add_node cfg node inv' = (Return tt, inv') /\
  for_each [node; node] (Plugin.add_node cfg) inv = (Return tt, inv').
Proof.
  intros Hind H. pose proof (add_node_idem _ _ _ _ Hind H) as H2.
  split; [done|]. simpl.
  rewrite (bind_Return _ _ _ _ _ H). by rewrite (bind_Return _ _ _ _ _ H2).
Qed.

Lemma role_options_independent :
  compose_independent (T := PathTemplar.templar) role_options.
Proof.
  intros varname expr hv hv' Hin Hag. simpl in Hin.
  apply list_elem_of_singleton in Hin. injection Hin as -> ->.
  assert (Hl : hv !! "node_labels" = hv' !! "node_labels").
  { apply Hag. simpl. intros Hk%list_elem_of_singleton. discriminate. }
  change (match hv !! "node_labels" with
          | Some v => PathTemplar.attrs v ["role"]
          | None => Raised (AnsibleError ("'" +:+ "node_labels" +:+ "' is undefined"))
          end
          = match hv' !! "node_labels" with
            | Some v => PathTemplar.attrs v ["role"]
            | None => Raised (AnsibleError ("'" +:+ "node_labels" +:+ "' is undefined"))
            end).
  by rewrite Hl.
Defined.

Lemma add_node_again_witness :
  let T := PathTemplar.templar in
  let inv' := (Plugin.add_node role_options edge_node empty_inventory).2 in
  compose_independent role_options /\
  Plugin.add_node role_options edge_node empty_inventory = (Return tt, inv') /\
  Plugin.add_node role_options edge_node inv' = (Return tt, inv').
Proof.
  intros T inv'.
  assert (H : Plugin.add_node role_options edge_node empty_inventory = (Return tt, inv'))
    by (vm_compute; reflexivity).
  split; [exact role_options_independent|]. split; [exact H|].
  exact (proj1 (add_node_again role_options edge_node empty_inventory inv'
                  role_options_independent H)).
Defined.

(** X12. [parse] builds from the options read at the path and ignores its
    [cache] argument; parsing again into the inventory it produced changes
    nothing, when the nodes' names are pairwise different and the composed
    expressions read no composed variable. *)
Theorem parse_again {T : Templar} {K : NodeSource} {B : BasePlugin} (path : string)
    (cache cache' : bool) (cfg : options) (nodes : list json) (inv inv' : inventory) :
  _read_config_data path = Return cfg ->
  Plugin.get_nodes (opt_node_selectors cfg) = Return (JList nodes) ->
  NoDup (Plugin.node_hostname <$> nodes) ->
  compose_independent cfg ->
  InventoryModule.parse path cache inv = (Return tt, inv') ->
  InventoryModule.parse path cache' inv = (Return tt, inv') /\
  InventoryModule.parse path cache' inv' = (Return tt, inv').
Proof.
  intros Hcfg Hg Hnd Hind H. split; [exact H|].
  unfold InventoryModule.parse in *.
  rewrite (bind_lift_Return _ _ _ _ Hcfg) in H. rewrite (bind_lift_Return _ _ _ _ Hcfg).
  rewrite (add_nodes_for_each _ _ _ Hg) in H. rewrite (add_nodes_for_each _ _ _ Hg).
  by apply (for_each_add_node_idem _ _ inv).
Qed.

Lemma parse_again_witness :
  let T := PathTemplar.templar in
  let K := fixed_source (node_list [edge_node; core_node]) in
  let B := constant_base role_options in
  let inv' := (InventoryModule.parse "kubernetes_nodes.yml" true empty_inventory).2 in
  NoDup (Plugin.node_hostname <$> [edge_node; core_node]) /\
  compose_independent role_options /\
  InventoryModule.parse "kubernetes_nodes.yml" true empty_inventory = (Return tt, inv') /\
  InventoryModule.parse "kubernetes_nodes.yml" false inv' = (Return tt, inv') /\
  size (hosts inv') = 2%nat.
Proof.
  intros T K B inv'.
  assert (Hnd : NoDup (Plugin.node_hostname <$> [edge_node; core_node])).
  { apply NoDup_cons. split; [|apply NoDup_singleton].
    intros Hin%list_elem_of_singleton. discriminate. }
  assert (H : InventoryModule.parse "kubernetes_nodes.yml" true empty_inventory
              = (Return tt, inv')) by (vm_compute; reflexivity).
  assert (Hg : Plugin.get_nodes (opt_node_selectors role_options)
               = Return (JList [edge_node; core_node])) by reflexivity.
  split; [exact Hnd|]. split; [exact role_options_independent|]. split; [exact H|].
  split; [|vm_compute; reflexivity].
  exact (proj2 (parse_again "kubernetes_nodes.yml" true false role_options
                  [edge_node; core_node] empty_inventory inv' eq_refl Hg Hnd
                  role_options_independent H)).
Defined.

(* ===================================================================== *)
(** ** The hosts of a successful build                                     *)
(* ===================================================================== *)

Lemma last_binding_is_Some k l : k ∈ l.*1 -> is_Some (last_binding k l).
Proof.
  intros Hin. destruct (last_binding k l) eqn:E; [done|].
  by apply last_binding_None in E.
Qed.

Lemma size_names_of_NoDup nodes :
  NoDup (Plugin.node_hostname <$> nodes) ->
  (forall node, node ∈ nodes -> exists h, Plugin.node_hostname node = Return (JStr h)) ->
  size (names_of nodes) = length nodes.
Proof.
  induction nodes as [|node nodes IH]; intros Hnd Hstr;
    [by rewrite names_of_nil, size_empty|].
  simpl in Hnd. apply NoDup_cons in Hnd as [Hnew Hnd].
  destruct (Hstr node (list_elem_of_here _ _)) as [h Hh].
  rewrite names_of_cons, size_union.
  - unfold name_of at 1. rewrite Hh, size_singleton. simpl. f_equal.
    apply IH; [done|]. intros n Hn. by apply Hstr, list_elem_of_further.
  - intros x Hx%elem_of_name_of (n & Hn & Hxn)%elem_of_names_of.
    apply Hnew. rewrite Hx, <- Hxn. by apply list_elem_of_fmap_2.
Qed.

Section Successful.
Context {T : Templar}.

Lemma for_each_add_node_dom_eq cfg nodes inv inv' :
  for_each nodes (Plugin.add_node cfg) inv = (Return tt, inv') ->
  dom (hosts inv') = dom (hosts inv) ∪ names_of nodes /\
  (forall node, node ∈ nodes -> exists h, Plugin.node_hostname node = Return (JStr h)).
Proof.
  revert inv. induction nodes as [|node nodes IH]; intros inv H; simpl in H.
  - injection H as <-. rewrite names_of_nil. split; [set_solver|].
    by intros ? ?%elem_of_nil.
  - apply bind_inv_Return in H as ([] & inv1 & Hn & Hrest).
    destruct (IH _ Hrest) as [Hdom Hstr].
    destruct (add_node_accepted _ _ _ _ Hn)
      as (h & ? & ? & ? & ? & ? & Hh & _ & _ & _ & _ & _ & _ & Hhosts).
    split.
    + rewrite Hdom, Hhosts, dom_insert_L, names_of_cons.
      unfold name_of at 1. rewrite Hh. set_solver.
    + intros n [->|Hin]%elem_of_cons; [by exists h | by apply Hstr].
Qed.

Lemma add_node_carries cfg node inv inv' h :
  Plugin.add_node cfg node inv = (Return tt, inv') ->
  carries (assigned_keys cfg) inv h \/ h ∈ name_of node ->
  carries (assigned_keys cfg) inv' h.
Proof.
  intros H Hh.
  destruct (add_node_accepted _ _ _ _ H)
    as (h0 & addr & labels & ann & info & composed
        & Hn & _ & _ & _ & _ & _ & Hc & Hhosts).
  destruct (decide (h = h0)) as [->|Hne].
  - eexists. split; [rewrite Hhosts; apply lookup_insert_eq|].
    intros k Hk. rewrite lookup_assign.
    assert (is_Some (last_binding k
              (fixed_vars addr labels ann info ++ opt_vars cfg ++ composed))) as [v ->];
      [|done].
    apply last_binding_is_Some. rewrite !fmap_app, (composed_from_keys _ _ _ Hc).
    exact Hk.
  - destruct Hh as [(hv & Hhv & Hk) | Hin].
    + exists hv. split; [|done]. rewrite Hhosts. by rewrite lookup_insert_ne.
    + apply elem_of_name_of in Hin. congruence.
Qed.

Lemma for_each_add_node_carries cfg nodes inv inv' h :
  for_each nodes (Plugin.add_node cfg) inv = (Return tt, inv') ->
  carries (assigned_keys cfg) inv h \/ h ∈ names_of nodes ->
  carries (assigned_keys cfg) inv' h.
Proof.
  revert inv. induction nodes as [|node nodes IH]; intros inv H Hh; simpl in H.
  - injection H as <-. destruct Hh as [?|Hin]; [done|].
    rewrite names_of_nil in Hin. by apply not_elem_of_empty in Hin.
  - apply bind_inv_Return in H as ([] & inv1 & Hn & Hrest).
    apply (IH _ Hrest). rewrite names_of_cons, elem_of_union in Hh.
    destruct Hh as [Hc | [Hin | Hin]]; [left | left | by right].
    + apply (add_node_carries _ _ _ _ _ Hn). by left.
    + apply (add_node_carries _ _ _ _ _ Hn). by right.
Qed.
End Successful.

(** X13. After a successful build the hosts are those there were and one
    for each name the nodes carry, every node having a str name; into an
    empty inventory, from nodes with pairwise different names, the build
    puts exactly as many hosts as there are nodes. *)
Theorem successful_build_hosts {T : Templar} {K : NodeSource} (cfg : options)
    (nodes : list json) (inv inv' : inventory) :
  Plugin.get_nodes (opt_node_selectors cfg) = Return (JList nodes) ->
  Plugin.add_nodes cfg inv = (Return tt, inv') ->
  dom (hosts inv') = dom (hosts inv) ∪ names_of nodes /\
  (forall node, node ∈ nodes -> exists h, Plugin.node_hostname node = Return (JStr h)) /\
  (hosts inv = ∅ -> NoDup (Plugin.node_hostname <$> nodes) ->
   size (hosts inv') = length nodes).
Proof.
  intros Hg H. rewrite (add_nodes_for_each _ _ _ Hg) in H.
  destruct (for_each_add_node_dom_eq _ _ _ _ H) as [Hdom Hstr].
  split; [done|]. split; [done|].
  intros Hempty Hnd. rewrite <- (size_dom (D := gset string)), Hdom, Hempty, dom_empty_L.
  rewrite (left_id_L ∅ (∪)). by apply size_names_of_NoDup.
Qed.

Lemma successful_build_hosts_witness :
  let T := PathTemplar.templar in
  let K := fixed_source (node_list [edge_node; second_node; core_node]) in
  let run := Plugin.add_nodes default_options empty_inventory in
  run = (Return tt, run.2) /\
  NoDup (Plugin.node_hostname <$> [edge_node; second_node; core_node]) /\
  size (hosts run.2) = 3%nat.
Proof.
  intros T K run.
  assert (H : run = (Return tt, run.2)) by (vm_compute; reflexivity).
  assert (Hnd : NoDup (Plugin.node_hostname <$> [edge_node; second_node; core_node])).
  { repeat (apply NoDup_cons; split); [| |apply not_elem_of_nil | apply NoDup_nil_2].
    - intros Hin. repeat (apply elem_of_cons in Hin as [Hin|Hin]; [discriminate|]).
      by apply elem_of_nil in Hin.
    - intros Hin. repeat (apply elem_of_cons in Hin as [Hin|Hin]; [discriminate|]).
      by apply elem_of_nil in Hin. }
  assert (Hg : Plugin.get_nodes (opt_node_selectors default_options)
               = Return (JList [edge_node; second_node; core_node])) by reflexivity.
  split; [exact H|]. split; [exact Hnd|].
  exact (proj2 (proj2 (successful_build_hosts default_options _ empty_inventory run.2 Hg H))
           eq_refl Hnd).
Defined.

(** X14. After a successful build every host that a node names carries
    the four derived variables, every static variable and every composed
    variable, and the hosts that carried them before still do. *)
Theorem built_hosts_carry_their_variables {T : Templar} {K : NodeSource} (cfg : options)
    (nodes : list json) (inv inv' : inventory) (h : string) :
  Plugin.get_nodes (opt_node_selectors cfg) = Return (JList nodes) ->
  Plugin.add_nodes cfg inv = (Return tt, inv') ->
  carries (assigned_keys cfg) inv h \/
  (exists node, node ∈ nodes /\ Plugin.node_hostname node = Return (JStr h)) ->
  exists hv,
    hosts inv' !! h = Some (Host hv) /\
    is_Some (hv !! "ansible_host") /\ is_Some (hv !! "node_labels") /\
    is_Some (hv !! "node_annotations") /\ is_Some (hv !! "node_info") /\
    (forall k, k ∈ (opt_vars cfg).*1 -> is_Some (hv !! k)) /\
    (forall k, k ∈ (opt_compose cfg).*1 -> is_Some (hv !! k)).
Proof.
  intros Hg H Hh. rewrite (add_nodes_for_each _ _ _ Hg) in H.
  destruct (for_each_add_node_carries cfg nodes inv inv' h H) as (hv & Hhv & Hk).
  { destruct Hh as [?|Hn]; [by left | right; by apply elem_of_names_of]. }
  exists hv. split; [done|]. unfold assigned_keys in Hk.
  repeat split; try (apply Hk; set_solver).
  - intros k Hin. apply Hk. set_solver.
  - intros k Hin. apply Hk. set_solver.
Qed.

Lemma built_hosts_carry_their_variables_witness :
  let T := PathTemplar.templar in
  let K := fixed_source (node_list [edge_node; core_node]) in
  let run := Plugin.add_nodes role_options empty_inventory in
  run = (Return tt, run.2) /\
  exists hv, hosts run.2 !! "n3" = Some (Host hv) /\
             is_Some (hv !! "ansible_host") /\ is_Some (hv !! "role").
Proof.
  intros T K run.
  assert (H : run = (Return tt, run.2)) by (vm_compute; reflexivity).
  assert (Hg : Plugin.get_nodes (opt_node_selectors role_options)
               = Return (JList [edge_node; core_node])) by reflexivity.
  split; [exact H|].
  destruct (built_hosts_carry_their_variables role_options _ empty_inventory run.2 "n3" Hg H)
    as (hv & Hhv & Ha & _ & _ & _ & Hs & _).
  { right. exists core_node. split; [|reflexivity].
    apply list_elem_of_further, list_elem_of_here. }
  exists hv. split; [exact Hhv|]. split; [exact Ha|].
  apply Hs. apply list_elem_of_here.
Defined.
